(** * twitter-pun-archiver: a shallow embedding of [utils.py] and
    [pun-archiver.py], and the properties of one archiving run.

    Layout: strings and characters; the fragment of Python's [re] used by
    [pun_format_regex]; the [datetime] conversions the code calls; the
    world of one run (configuration, collaborators, mutable state) with a
    small state-and-exception monad; the functions of [utils.py] and
    [main]; then the theorems. *)

From Stdlib Require Import List String Ascii ZArith NArith Arith Bool Lia.
From Stdlib Require Import DecimalString Sorted.
Import ListNotations.

Local Open Scope string_scope.
Local Open Scope list_scope.

(* ================================================================== *)
(** ** Characters and strings *)

Definition LF : ascii := "010"%char.
Definition TAB : ascii := "009"%char.
Definition DQUOTE : ascii := "034"%char.
Definition SQUOTE : ascii := "039"%char.

(** The one-character strings written ["\n"] and ["\t"] in the source. *)
Definition nl : string := String LF EmptyString.
Definition tab : string := String TAB EmptyString.

Notation "s +++ t" := (String.append s t)
  (at level 60, right associativity) : string_scope.

(** A Python [str] is modelled by the [string] of its code points, one
    element for each code point.  The elements being 8-bit, the model
    covers the texts whose code points are below 256 (ASCII and Latin-1);
    text with a code point above 255 is outside it, and every literal of
    this file is ASCII.  [len] is then Python's [len] on [str]: the
    number of code points. *)
Definition len (s : string) : Z := Z.of_nat (String.length s).

(** The character of code 0, which a value of [os.environ] cannot hold. *)
Definition NUL : ascii := "000"%char.

Fixpoint has_nul (s : string) : bool :=
  match s with
  | EmptyString => false
  | String a s' => Ascii.eqb a NUL || has_nul s'
  end.

(** No ["\n"] anywhere in the string. *)
Fixpoint single_line (s : string) : bool :=
  match s with
  | EmptyString => true
  | String a s' => negb (Ascii.eqb a LF) && single_line s'
  end.

(** Some ["\n\n"] occurs in the string. *)
Fixpoint has_blank_line (s : string) : bool :=
  match s with
  | String a ((String b _) as s') =>
      (Ascii.eqb a LF && Ascii.eqb b LF) || has_blank_line s'
  | _ => false
  end.

(** The longest newline-free prefix of a string, and what follows it. *)
Fixpoint line (s : string) : string :=
  match s with
  | EmptyString => EmptyString
  | String a s' => if Ascii.eqb a LF then EmptyString else String a (line s')
  end.

Fixpoint after_line (s : string) : string :=
  match s with
  | EmptyString => EmptyString
  | String a s' => if Ascii.eqb a LF then s else after_line s'
  end.

(* ================================================================== *)
(** ** The fragment of [re] that [pun_format_regex] is written in

    A backtracking matcher in continuation-passing style, as [re] runs
    a pattern: [.] takes any character but ["\n"] (the pattern is compiled
    without [re.DOTALL]), [+] is greedy and gives characters back one at a
    time, [$] holds at the end of the string and just before a final
    ["\n"] (no [re.MULTILINE]), and a group records the text it spanned. *)

Module Re.

Inductive cset : Type :=
| Chr (c : ascii)      (* a literal character *)
| AnyChar.             (* [.] *)

Definition accepts (c : cset) (a : ascii) : bool :=
  match c with
  | Chr x => Ascii.eqb a x
  | AnyChar => negb (Ascii.eqb a LF)
  end.

Inductive regex : Type :=
| One (c : cset)                 (* one character of the set *)
| Many1 (c : cset)               (* [c+], greedy *)
| Dollar                         (* [$] *)
| Cat (r1 r2 : regex)            (* concatenation *)
| Group (n : nat) (r : regex).   (* the [n]-th capturing group *)

(** Groups that took part in the match, most recent first. *)
Definition captures : Type := list (nat * string).

Fixpoint lookup (m : captures) (n : nat) : option string :=
  match m with
  | [] => None
  | (k, s) :: m' => if Nat.eqb k n then Some s else lookup m' n
  end.

(** [result.group(n)]; [None] in Python for a group that took no part,
    which cannot happen after a match of a pattern without alternatives. *)
Definition group (m : captures) (n : nat) : string :=
  match lookup m n with Some s => s | None => EmptyString end.

(** What was read between the input [s] and its suffix [s']. *)
Definition consumed (s s' : string) : string :=
  substring 0 (String.length s - String.length s') s.

Definition at_dollar (s : string) : bool :=
  match s with
  | EmptyString => true
  | String a EmptyString => Ascii.eqb a LF
  | _ => false
  end.

Section Matcher.
Variable R : Type.
Definition cont : Type := string -> captures -> option R.

(** Zero or more characters of [c], longest first. *)
Fixpoint many (c : cset) (s : string) (m : captures) (k : cont)
  : option R :=
  match s with
  | String a s' =>
      if accepts c a then
        match many c s' m k with
        | Some r => Some r
        | None => k s m
        end
      else k s m
  | EmptyString => k s m
  end.

Fixpoint run (r : regex) (s : string) (m : captures) (k : cont)
  : option R :=
  match r with
  | One c =>
      match s with
      | String a s' => if accepts c a then k s' m else None
      | EmptyString => None
      end
  | Many1 c =>
      match s with
      | String a s' => if accepts c a then many c s' m k else None
      | EmptyString => None
      end
  | Dollar => if at_dollar s then k s m else None
  | Cat r1 r2 => run r1 s m (fun s' m' => run r2 s' m' k)
  | Group n r1 =>
      run r1 s m (fun s' m' => k s' ((n, consumed s s') :: m'))
  end.
End Matcher.

Arguments many {R} c s m k.
Arguments run {R} r s m k.

(** [pattern.match(text)]: anchored at the start of [text], free at
    its end. *)
Definition re_match (r : regex) (text : string) : option captures :=
  run r text [] (fun _ m => Some m).

End Re.

Import Re.

(** [pun_format_regex = re.compile(r"(.+)\n\n(.+$)")] *)
Definition pun_format_regex : regex :=
  Cat (Group 1 (Many1 AnyChar))
      (Cat (One (Chr LF))
           (Cat (One (Chr LF))
                (Group 2 (Cat (Many1 AnyChar) Dollar)))).

(** The test of [archive_tweets] on one text, with the two groups it
    reads off the match: [result.group(1)] and [result.group(2)]. *)
Definition pun_match (text : string) : option (string * string) :=
  match re_match pun_format_regex text with
  | None => None
  | Some result => Some (group result 1, group result 2)
  end.

Definition is_pun (text : string) : bool :=
  match pun_match text with Some _ => true | None => false end.

(** The shape the specification gives for a pun text: [setup], a blank
    line, [punchline], both non-empty, the blank line being the last one
    of the text. *)
Definition spec_pun_shape (text setup punchline : string) : Prop :=
  text = setup +++ nl +++ nl +++ punchline
  /\ setup <> EmptyString
  /\ punchline <> EmptyString
  /\ has_blank_line punchline = false.

(* ================================================================== *)
(** ** Integers and dates as the code prints and parses them *)

(** [str(n)] for a Python [int]. *)
Definition str_int (z : Z) : string := NilZero.string_of_int (Z.to_int z).

Definition is_digit (a : ascii) : bool :=
  let n := nat_of_ascii a in (48 <=? n)%nat && (n <=? 57)%nat.

Definition digit_val (a : ascii) : Z := Z.of_nat (nat_of_ascii a - 48).

Fixpoint digits_from (acc : Z) (s : string) : option Z :=
  match s with
  | EmptyString => Some acc
  | String a s' =>
      if is_digit a then digits_from (10 * acc + digit_val a) s' else None
  end.

(** The value of a non-empty string of decimal digits. *)
Definition number (s : string) : option Z :=
  match s with
  | EmptyString => None
  | _ => digits_from 0 s
  end.

(** The pieces of [s] between the characters that satisfy [sep]. *)
Fixpoint split_at (sep : ascii -> bool) (s : string) : list string :=
  match s with
  | EmptyString => [EmptyString]
  | String a s' =>
      if sep a then EmptyString :: split_at sep s'
      else match split_at sep s' with
           | h :: t => String a h :: t
           | [] => [String a EmptyString]
           end
  end.

Definition is_char (c : ascii) : ascii -> bool := fun a => Ascii.eqb a c.

(** A numeric field of [strptime]: [lo_len] to [hi_len] digits with a
    value between [lo] and [hi]. *)
Definition field (lo_len hi_len : nat) (lo hi : Z) (s : string) : option Z :=
  match number s with
  | Some v =>
      if (lo_len <=? String.length s)%nat && (String.length s <=? hi_len)%nat
         && (lo <=? v)%Z && (v <=? hi)%Z
      then Some v else None
  | None => None
  end.

(** [%d] also takes a blank and one digit from 1 to 9. *)
Definition field_day (s : string) : option Z :=
  match s with
  | String " " d => field 1 1 1 9 d
  | _ => field 1 2 1 31 s
  end.

Definition leap_year (y : Z) : bool :=
  ((y mod 4 =? 0) && negb (y mod 100 =? 0) || (y mod 400 =? 0))%Z.

Definition days_in_month (y m : Z) : Z :=
  if (m =? 2)%Z then (if leap_year y then 29 else 28)
  else if ((m =? 4) || (m =? 6) || (m =? 9) || (m =? 11))%Z then 30
  else 31.

Record datetime : Type := { year : Z; month : Z; day : Z }.

(** The date of the calendar, or [None] where [datetime] raises
    [ValueError]. *)
Definition make_date (y m d : Z) : option datetime :=
  if ((1 <=? y) && (d <=? days_in_month y m))%Z
  then Some {| year := y; month := m; day := d |}
  else None.

(** [datetime.strptime(s, "%m/%d/%Y")]; [None] stands for [ValueError]. *)
Definition strptime_mdY (s : string) : option datetime :=
  match split_at (is_char "/") s with
  | [m; d; y] =>
      match field 1 2 1 12 m, field_day d, field 4 4 0 9999 y with
      | Some m', Some d', Some y' => make_date y' m' d'
      | _, _, _ => None
      end
  | _ => None
  end.

(** [datetime.strptime(s, "%Y-%m-%dT%H:%M:%S.%fZ")], of which the date is
    the part read afterwards; the literal letters match in either case, as
    the format is compiled ignoring case, and a second above 59 is refused
    by [datetime]. *)
Definition strptime_iso (s : string) : option datetime :=
  match split_at (is_char "-") s with
  | [y; m; r1] =>
      match split_at (fun a => is_char "T" a || is_char "t" a) r1 with
      | [d; r2] =>
          match split_at (is_char ":") r2 with
          | [hh; mm; r3] =>
              match split_at (is_char ".") r3 with
              | [ss; r4] =>
                  match split_at (fun a => is_char "Z" a || is_char "z" a) r4
                  with
                  | [f; EmptyString] =>
                      match field 4 4 0 9999 y, field 1 2 1 12 m, field_day d,
                            field 1 2 0 23 hh, field 1 2 0 59 mm,
                            field 1 2 0 59 ss, field 1 6 0 999999 f
                      with
                      | Some y', Some m', Some d', Some _, Some _, Some _,
                        Some _ => make_date y' m' d'
                      | _, _, _, _, _, _, _ => None
                      end
                  | _ => None
                  end
              | _ => None
              end
          | _ => None
          end
      | _ => None
      end
  | _ => None
  end.

Definition pad2 (z : Z) : string :=
  if (z <? 10)%Z then "0" +++ str_int z else str_int z.

(** [d.strftime("%m/%d/%Y")]; the year is printed as the C library
    prints it, all its digits and no padding. *)
Definition strftime_mdY (d : datetime) : string :=
  pad2 (month d) +++ "/" +++ pad2 (day d) +++ "/" +++ str_int (year d).

(* ================================================================== *)
(** ** Stripping quotes: [str.strip] with the double and the single quote
    as the characters to remove at both ends *)

Definition is_quote (a : ascii) : bool :=
  Ascii.eqb a DQUOTE || Ascii.eqb a SQUOTE.

Fixpoint lstrip_quotes (s : string) : string :=
  match s with
  | String a s' => if is_quote a then lstrip_quotes s' else s
  | EmptyString => EmptyString
  end.

Fixpoint rstrip_quotes (s : string) : string :=
  match s with
  | String a s' =>
      match rstrip_quotes s' with
      | EmptyString => if is_quote a then EmptyString else String a EmptyString
      | t => String a t
      end
  | EmptyString => EmptyString
  end.

Definition strip_quotes (s : string) : string :=
  rstrip_quotes (lstrip_quotes s).

(* ================================================================== *)
(** ** The world of one run *)

(** A post as the source delivers it: the dictionary with the keys
    ["id"], ["text"] and ["created_at"] that [get_tweets] asks for. *)
Record Tweet : Type := { id : string; text : string; created_at : string }.

(** The dictionary [client.get_users_tweets] returns: [meta] is
    [user_tweets["meta"]["result_count"]] when the key ["meta"] is there,
    [data] is [user_tweets["data"]] when the key ["data"] is there. *)
Record Response : Type := { meta : option Z; data : option (list Tweet) }.

(** What [get_tweets] returns: the response, or the integer [-1]. *)
Inductive Fetched : Type :=
| Page (r : Response)
| Int (z : Z).

(** The client object [tweepy.Client(...)] builds from the credentials. *)
Inductive Client : Type := TweepyClient.

(** The three requests the code sends to [documents().batchUpdate]. *)
Inductive Request : Type :=
| InsertText (index : Z) (txt : string)
| UpdateParagraphStyle (startIndex endIndex : Z)
| UpdateTextStyle (startIndex endIndex : Z).

Inductive Exn : Type :=
| TypeError | ValueError | KeyError   (* raised by Python itself *)
| TweepyException                     (* raised by the source *)
| HttpError                           (* raised by the document service *)
| OSError.                            (* raised when a file cannot be written *)

(** What becomes of a call of [dotenv.set_key]: the file is rewritten
    with the new value, or the call returns without having written (as it
    does, with a warning, when it finds no file), or it raises because
    the file cannot be written. *)
Inductive Outcome : Type := Written | Skipped | Failed.

(** What a run does that can be seen from outside, in the order it does it. *)
Inductive Event : Type :=
| Print (ln : string)
| GetUsersTweets (since_id : option string) (max_results : Z)
| BatchUpdate (rq : Request) (ok : bool)
| SetEnviron (key value : string)
| DotenvSetKey (key value : string)                    (* written *)
| DotenvNotWritten (key value : string) (raised : bool).

(** A key-value store: [os.environ], or the [.env] file. *)
Definition Env : Type := list (string * string).

Fixpoint env_get (key : string) (e : Env) : option string :=
  match e with
  | [] => None
  | (k, v) :: e' => if String.eqb k key then Some v else env_get key e'
  end.

Definition env_set (key value : string) (e : Env) : Env := (key, value) :: e.

(** What a run starts from and what answers it gets: the environment
    after [load_dotenv], the [.env] file, the year [datetime.now()] falls
    in, the answer of the source to [get_users_tweets(since_id,
    max_results)], whether the [n]-th [batchUpdate(...).execute()] of
    the run succeeds, and what becomes of the [n]-th [dotenv.set_key] of
    the run. *)
Record World : Type := {
  environ0 : Env;
  dotenv0 : Env;
  now_year : Z;
  get_users_tweets : option string -> Z -> Response + Exn;
  docs_ok : nat -> bool;
  set_key_outcome : nat -> Outcome
}.

(** The mutable part: [os.environ], the [.env] file, the numbers of
    [batchUpdate] and of [dotenv.set_key] calls made so far, and the
    events so far. *)
Record State : Type := {
  environ : Env;
  dotenv : Env;
  gd_calls : nat;
  dotenv_calls : nat;
  trace : list Event
}.

Definition initial (w : World) : State :=
  {| environ := environ0 w; dotenv := dotenv0 w; gd_calls := 0;
     dotenv_calls := 0; trace := [] |}.

(** *** State and exceptions *)

Definition M (A : Type) : Type := State -> State * (A + Exn).

Definition ret {A : Type} (a : A) : M A := fun st => (st, inl a).

Definition raise {A : Type} (e : Exn) : M A := fun st => (st, inr e).

Definition bind {A B : Type} (c : M A) (k : A -> M B) : M B :=
  fun st =>
    match c st with
    | (st', inl a) => k a st'
    | (st', inr e) => (st', inr e)
    end.

Declare Scope py_scope.
Delimit Scope py_scope with py.
Notation "x <- c ;; k" := (bind c (fun x => k))
  (at level 100, c at next level, right associativity) : py_scope.
Notation "c ;; k" := (bind c (fun _ => k))
  (at level 100, right associativity) : py_scope.
Local Open Scope py_scope.

Definition emit (e : Event) : M unit :=
  fun st =>
    ({| environ := environ st; dotenv := dotenv st; gd_calls := gd_calls st;
        dotenv_calls := dotenv_calls st;
        trace := trace st ++ [e] |}, inl tt).

(** [for x in l: body(x)] *)
Fixpoint for_each {A : Type} (body : A -> M unit) (l : list A) : M unit :=
  match l with
  | [] => ret tt
  | x :: l' => body x ;; for_each body l'
  end.

(** An optional value, [None] raising [e]. *)
Definition expect {A : Type} (e : Exn) (o : option A) : M A :=
  match o with
  | Some a => ret a
  | None => raise e
  end.

Definition print (ln : string) : M unit := emit (Print ln).

(** A value inside an f-string. *)
Definition fmt_opt (o : option string) : string :=
  match o with
  | Some s => s
  | None => "None"
  end.

(** [os.environ[key] = value], which raises [ValueError] and sets
    nothing when the value holds a null character, and [os.environ[key]]. *)
Definition environ_set (key value : string) : M unit :=
  fun st =>
    if has_nul value then (st, inr ValueError)
    else
      ({| environ := env_set key value (environ st); dotenv := dotenv st;
          gd_calls := gd_calls st; dotenv_calls := dotenv_calls st;
          trace := trace st ++ [SetEnviron key value] |}, inl tt).

Definition environ_get (key : string) : M string :=
  fun st => expect KeyError (env_get key (environ st)) st.

(* ================================================================== *)
(** ** [utils.py] *)

Definition ITALICS_OFFSET : Z := 9.
Definition last_seen_tweet_id_found : bool := true.

(** [format_tweet] *)
Definition format_tweet (date setup punchline : string) : string :=
  date +++ nl +++ setup +++ nl +++ tab +++ punchline +++ nl +++ nl.

(** [twt_auth_passed]: builds the client and returns it. *)
Definition twt_auth_passed : option Client := Some TweepyClient.

(** [log_tweet_info] *)
Definition log_tweet_info (tweet : Tweet) (date id setup punchline : string)
  : M unit :=
  print ("New tweet ID: " +++ id) ;;
  print ("  date: " +++ date) ;;
  print ("  setup: " +++ setup) ;;
  print ("  punchline: " +++ punchline).

Section Run.
Variable w : World.

(** The module globals read from the environment at import. *)
Definition LAST_SEEN_TWEET_ID : option string :=
  env_get "LAST_SEEN_TWEET_ID" (environ0 w).
Definition LAST_RUN_DATE : option string :=
  env_get "LAST_RUN_DATE" (environ0 w).

(** [dotenv.set_key(dotenv_file, key, value)], whose returned value the
    code does not look at. *)
Definition dotenv_set_key (key value : string) : M unit :=
  fun st =>
    match set_key_outcome w (dotenv_calls st) with
    | Written =>
        ({| environ := environ st; dotenv := env_set key value (dotenv st);
            gd_calls := gd_calls st; dotenv_calls := S (dotenv_calls st);
            trace := trace st ++ [DotenvSetKey key value] |}, inl tt)
    | Skipped =>
        ({| environ := environ st; dotenv := dotenv st;
            gd_calls := gd_calls st; dotenv_calls := S (dotenv_calls st);
            trace := trace st ++ [DotenvNotWritten key value false] |},
         inl tt)
    | Failed =>
        ({| environ := environ st; dotenv := dotenv st;
            gd_calls := gd_calls st; dotenv_calls := S (dotenv_calls st);
            trace := trace st ++ [DotenvNotWritten key value true] |},
         inr OSError)
    end.

(** [save_last_seen_id] *)
Definition save_last_seen_id (new_id : string) : M unit :=
  environ_set "LAST_SEEN_TWEET_ID" (strip_quotes new_id) ;;
  v <- environ_get "LAST_SEEN_TWEET_ID" ;;
  dotenv_set_key "LAST_SEEN_TWEET_ID" (strip_quotes v) ;;
  print ("Saved last seen tweet ID: " +++ new_id).

(** [save_last_run_date] *)
Definition save_last_run_date (date : string) : M unit :=
  environ_set "LAST_RUN_DATE" (strip_quotes date) ;;
  v <- environ_get "LAST_RUN_DATE" ;;
  dotenv_set_key "LAST_RUN_DATE" (strip_quotes v) ;;
  print ("Saved last run date: " +++ date).

(** [service.documents().batchUpdate(documentId=DOCUMENT_ID,
    body={'requests': [rq]}).execute()] *)
Definition batchUpdate (rq : Request) : M unit :=
  fun st =>
    let ok := docs_ok w (gd_calls st) in
    ({| environ := environ st; dotenv := dotenv st;
        gd_calls := S (gd_calls st); dotenv_calls := dotenv_calls st;
        trace := trace st ++ [BatchUpdate rq ok] |},
     if ok then inl tt else inr HttpError).

(** [get_tweets]; the account, the excluded kinds and the fields asked
    for are the same in every call and are left out of the event. *)
Definition get_tweets (client : Client) (last_seen_tweet_id : option string)
    (num_tweet_retrieve : Z) : M Fetched :=
  if last_seen_tweet_id_found then
    emit (GetUsersTweets last_seen_tweet_id num_tweet_retrieve) ;;
    match get_users_tweets w last_seen_tweet_id num_tweet_retrieve with
    | inl user_tweets => ret (Page user_tweets)
    | inr e => raise e
    end
  else ret (Int (-1)).

(** [doc_add_text], [doc_format_text], [doc_italicize_punchline] *)
Definition doc_add_text (tweet_text : string) (idx : Z) : M unit :=
  batchUpdate (InsertText idx tweet_text).

Definition doc_format_text (start_idx end_idx : Z) : M unit :=
  batchUpdate (UpdateParagraphStyle start_idx end_idx).

Definition doc_italicize_punchline (start_idx end_idx : Z) : M unit :=
  batchUpdate (UpdateTextStyle start_idx end_idx).

(** [doc_update_year] *)
Definition doc_update_year : M unit :=
  s <- expect TypeError LAST_RUN_DATE ;;
  last_run <- expect ValueError (strptime_mdY s) ;;
  let now := now_year w in
  if (year last_run <? now)%Z then
    let year_str := str_int now +++ nl in
    doc_add_text year_str 1
  else ret tt.

(** The body of the loop of [archive_tweets]. *)
Definition archive_tweet (tweet : Tweet) : M unit :=
  match re_match pun_format_regex (text tweet) with
  | None => ret tt
  | Some result =>
      created <- expect ValueError (strptime_iso (created_at tweet)) ;;
      let date := strftime_mdY created in
      let tweet_setup := group result 1 in
      let tweet_punchline := group result 2 in
      log_tweet_info tweet date (id tweet) tweet_setup tweet_punchline ;;
      let formatted_tweet := format_tweet date tweet_setup tweet_punchline in
      doc_add_text formatted_tweet 6 ;;
      doc_format_text 6
        (len (date +++ tweet_setup +++ tweet_punchline) + ITALICS_OFFSET) ;;
      doc_italicize_punchline
        (len (date +++ tweet_setup) + ITALICS_OFFSET)
        (len (date +++ tweet_setup +++ tweet_punchline) + ITALICS_OFFSET) ;;
      print "Tweet exported to doc." ;;
      save_last_seen_id (id tweet)
  end.

(** [archive_tweets] *)
Definition archive_tweets (user_tweets : Response) : M unit :=
  doc_update_year ;;
  tweets <- expect KeyError (data user_tweets) ;;
  for_each archive_tweet (rev tweets).

(** [main], from the client on.  [build('docs', 'v1')] hands back the
    service object on which [batchUpdate] is called later; it sends
    nothing to the document and is taken to succeed. *)
Definition main_with (client : option Client) : M (option Z) :=
  match client with
  | None => ret (Some 1%Z)
  | Some client =>
      let last_seen_id := LAST_SEEN_TWEET_ID in
      print ("Last seen tweet ID: " +++ fmt_opt last_seen_id) ;;
      user_tweets <- get_tweets client last_seen_id 100 ;;
      match user_tweets with
      | Int _ => raise TypeError
      | Page user_tweets =>
          if match meta user_tweets with
             | Some result_count => (result_count =? 0)%Z
             | None => false
             end
          then print "No new tweets found." ;; ret None
          else archive_tweets user_tweets ;; ret None
      end
  end.

(** [main] *)
Definition main : M (option Z) := main_with twt_auth_passed.

(** The script: [main()] is called and its value dropped; the status
    of the process is 0 when the call returns and 1 when an exception
    leaves it. *)
Definition script : State * (option Z + Exn) := main (initial w).

Definition exit_status (r : option Z + Exn) : Z :=
  match r with
  | inl _ => 0
  | inr _ => 1
  end.

End Run.

(** What the backtracking of [pun_format_regex] comes to, read off the
    text directly: a first line, a blank line, a second line, then the end
    of the text or one last newline.  [pun_match_split] proves the two
    equal. *)
Definition pun_split (t : string) : option (string * string) :=
  match t with
  | String a _ =>
      if accepts AnyChar a then
        match after_line t with
        | String _ (String b (String c _ as p)) =>
            if Ascii.eqb b LF && accepts AnyChar c && at_dollar (after_line p)
            then Some (line t, line p)
            else None
        | _ => None
        end
      else None
  | EmptyString => None
  end.

(** A text of three blocks separated by blank lines, and one whose first
    block has two lines. *)
Definition three_blocks : string :=
  "a" +++ nl +++ nl +++ "b" +++ nl +++ nl +++ "c".

Definition two_line_setup : string :=
  "a" +++ nl +++ "b" +++ nl +++ nl +++ "c".

(* ================================================================== *)
(** ** Reading a run: observers of states and traces *)

Definition KEY : string := "LAST_SEEN_TWEET_ID".

(** The persisted watermark: the value of the key in the [.env] file. *)
Definition watermark (st : State) : option string := env_get KEY (dotenv st).

(** The requests sent to the document, in order, with their outcome. *)
Fixpoint sent (tr : list Event) : list (Request * bool) :=
  match tr with
  | [] => []
  | BatchUpdate rq ok :: tr' => (rq, ok) :: sent tr'
  | _ :: tr' => sent tr'
  end.

(** The texts inserted at position [idx] by requests that succeeded. *)
Fixpoint inserted_at (idx : Z) (tr : list Event) : list string :=
  match tr with
  | [] => []
  | BatchUpdate (InsertText i txt) true :: tr' =>
      if (i =? idx)%Z then txt :: inserted_at idx tr' else inserted_at idx tr'
  | _ :: tr' => inserted_at idx tr'
  end.

(** The values written for the watermark in the [.env] file, in order. *)
Fixpoint saves (tr : list Event) : list string :=
  match tr with
  | [] => []
  | DotenvSetKey k v :: tr' =>
      if String.eqb k KEY then v :: saves tr' else saves tr'
  | _ :: tr' => saves tr'
  end.

(** The fetches made, in order. *)
Fixpoint fetches (tr : list Event) : list (option string * Z) :=
  match tr with
  | [] => []
  | GetUsersTweets since n :: tr' => (since, n) :: fetches tr'
  | _ :: tr' => fetches tr'
  end.

(** The lines printed, in order. *)
Fixpoint printed (tr : list Event) : list string :=
  match tr with
  | [] => []
  | Print ln :: tr' => ln :: printed tr'
  | _ :: tr' => printed tr'
  end.

(** *** What one post contributes *)

Definition matches (t : Tweet) : bool := is_pun (text t).

(** The date, setup and punchline of a post that matches and whose
    timestamp parses. *)
Definition parsed (t : Tweet) : option (string * string * string) :=
  match pun_match (text t), strptime_iso (created_at t) with
  | Some (setup, punchline), Some d => Some (strftime_mdY d, setup, punchline)
  | _, _ => None
  end.

(** The three requests of a post, in the order they are sent. *)
Definition requests (date setup punchline : string) : list Request :=
  [ InsertText 6 (format_tweet date setup punchline);
    UpdateParagraphStyle 6
      (len (date +++ setup +++ punchline) + ITALICS_OFFSET);
    UpdateTextStyle
      (len (date +++ setup) + ITALICS_OFFSET)
      (len (date +++ setup +++ punchline) + ITALICS_OFFSET) ].

Definition log_lines (i date setup punchline : string) : list Event :=
  [ Print ("New tweet ID: " +++ i);
    Print ("  date: " +++ date);
    Print ("  setup: " +++ setup);
    Print ("  punchline: " +++ punchline) ].

Definition write_events (date setup punchline : string) : list Event :=
  map (fun rq => BatchUpdate rq true) (requests date setup punchline).

Definition save_events (i : string) : list Event :=
  [ SetEnviron KEY (strip_quotes i);
    DotenvSetKey KEY (strip_quotes (strip_quotes i));
    Print ("Saved last seen tweet ID: " +++ i) ].

(** Everything a post that is archived to the end leaves in the trace:
    its console lines, its three writes, the line that reports them, its
    watermark save. *)
Definition post_events (t : Tweet) : list Event :=
  match parsed t with
  | Some (date, setup, punchline) =>
      log_lines (id t) date setup punchline
      ++ write_events date setup punchline
      ++ [Print "Tweet exported to doc."]
      ++ save_events (id t)
  | None => []
  end.

(** What a post leaves when its [n]-th write (from 0) is refused. *)
Definition broken_events (t : Tweet) (n : nat) : list Event :=
  match parsed t with
  | Some (date, setup, punchline) =>
      log_lines (id t) date setup punchline
      ++ map (fun rq => BatchUpdate rq true)
             (firstn n (requests date setup punchline))
      ++ match nth_error (requests date setup punchline) n with
         | Some rq => [BatchUpdate rq false]
         | None => []
         end
  | None => []
  end.

(** The events of a save in which [dotenv.set_key] returns without
    having written. *)
Definition skipped_save_events (i : string) : list Event :=
  [ SetEnviron KEY (strip_quotes i);
    DotenvNotWritten KEY (strip_quotes (strip_quotes i)) false;
    Print ("Saved last seen tweet ID: " +++ i) ].

(** What a post leaves when its three writes are accepted and
    [dotenv.set_key] returns without having written. *)
Definition post_events_skipped (t : Tweet) : list Event :=
  match parsed t with
  | Some (date, setup, punchline) =>
      log_lines (id t) date setup punchline
      ++ write_events date setup punchline
      ++ [Print "Tweet exported to doc."]
      ++ skipped_save_events (id t)
  | None => []
  end.

(** What a post leaves when its three writes are accepted and its
    identifier cannot be put in the environment. *)
Definition unsaved_events (t : Tweet) : list Event :=
  match parsed t with
  | Some (date, setup, punchline) =>
      log_lines (id t) date setup punchline
      ++ write_events date setup punchline
      ++ [Print "Tweet exported to doc."]
  | None => []
  end.

(** What a post leaves when its three writes are accepted and
    [dotenv.set_key] raises. *)
Definition failed_save_events (t : Tweet) : list Event :=
  match parsed t with
  | Some (date, setup, punchline) =>
      log_lines (id t) date setup punchline
      ++ write_events date setup punchline
      ++ [Print "Tweet exported to doc."]
      ++ [ SetEnviron KEY (strip_quotes (id t));
           DotenvNotWritten KEY (strip_quotes (strip_quotes (id t))) true ]
  | None => []
  end.

(** The events of a post archived to the end, with the [.env] file
    written ([true]) or not ([false]). *)
Definition archived_events (d : Tweet * bool) : list Event :=
  if snd d then post_events (fst d) else post_events_skipped (fst d).

(** The posts whose save reached the [.env] file. *)
Definition written (done : list (Tweet * bool)) : list Tweet :=
  map fst (filter snd done).

(** The entry of a post in the document. *)
Definition entry (t : Tweet) : option string :=
  match parsed t with
  | Some (date, setup, punchline) => Some (format_tweet date setup punchline)
  | None => None
  end.

(** *** Identifiers *)

(** Identifiers of the source are strings of decimal digits. *)
Definition numeric (s : string) : bool :=
  match number s with Some _ => true | None => false end.

(** [older a b]: the identifier [a] is numerically below [b]. *)
Definition older (a b : string) : Prop :=
  exists x y, number a = Some x /\ number b = Some y /\ (x < y)%Z.

Definition olderb (a b : string) : bool :=
  match number a, number b with
  | Some x, Some y => (x <? y)%Z
  | _, _ => false
  end.

(** A post as the source sends it and the code expects it: a numeric
    identifier and, when the text matches, a timestamp that parses. *)
Definition well_formed (t : Tweet) : Prop :=
  numeric (id t) = true
  /\ (matches t = true -> strptime_iso (created_at t) <> None).

(** The source keeps its word on [since_id]: what it returns for
    [since_id = Some s] is newer than [s]. *)
Definition since_id_honoured (w : World) : Prop :=
  forall s n r page t,
    get_users_tweets w (Some s) n = inl r ->
    data r = Some page -> In t page -> older s (id t).

(** The document service accepts every request. *)
Definition docs_up (w : World) : Prop := forall n, docs_ok w n = true.

(** A source that holds the posts [timeline], newest first, and answers
    as the API documents: the posts above [since_id], the [max_results]
    newest of them, with their count; no ["data"] key when there are none. *)
Definition timeline_api (timeline : list Tweet)
  : option string -> Z -> Response + Exn :=
  fun since n =>
    let newer := match since with
                 | Some s => filter (fun t => olderb s (id t)) timeline
                 | None => timeline
                 end in
    let page := firstn (Z.to_nat n) newer in
    inl {| meta := Some (Z.of_nat (List.length page));
           data := match page with [] => None | _ => Some page end |}.

(** The two stores after the saves of the posts of [done], in order. *)
Definition environ_after (done : list Tweet) (e : Env) : Env :=
  fold_left (fun e t => env_set KEY (strip_quotes (id t)) e) done e.

Definition dotenv_after (done : list Tweet) (e : Env) : Env :=
  fold_left
    (fun e t => env_set KEY (strip_quotes (strip_quotes (id t))) e) done e.

(** How a pass over the posts can stop at the post [p] with the
    exception [e], leaving [partial] in the trace: the timestamp of [p]
    does not parse and nothing is left; or one of its three writes is
    refused by the document service; or its three writes are accepted and
    its identifier, holding a null character, cannot be put in the
    environment; or they are accepted, the environment is set and the
    [.env] file cannot be written. *)
Definition stopped_at (w : World) (p : Tweet) (partial : list Event) (e : Exn)
  : Prop :=
  (e = ValueError /\ strptime_iso (created_at p) = None /\ partial = [])
  \/ (e = HttpError /\ parsed p <> None
      /\ exists n k, (n < 3)%nat /\ docs_ok w k = false
                     /\ partial = broken_events p n)
  \/ (e = ValueError /\ parsed p <> None
      /\ has_nul (strip_quotes (id p)) = true
      /\ partial = unsaved_events p)
  \/ (e = OSError /\ parsed p <> None
      /\ (exists k, set_key_outcome w k = Failed)
      /\ partial = failed_save_events p).

(** What is known of a post archived to the end: it parsed, its
    identifier went in the environment, and the [.env] file answered its
    save as recorded. *)
Definition archived (w : World) (d : Tweet * bool) : Prop :=
  parsed (fst d) <> None
  /\ has_nul (strip_quotes (id (fst d))) = false
  /\ exists k, set_key_outcome w k = if snd d then Written else Skipped.

(** The post whose identifier is in the environment and not in the
    [.env] file when the pass stopped at [p] with [e]. *)
Definition set_not_written (e : Exn) (p : Tweet) : list Tweet :=
  match e with
  | OSError => [p]
  | _ => []
  end.

(** Every call of [dotenv.set_key] writes the file. *)
Definition env_file_up (w : World) : Prop :=
  forall n, set_key_outcome w n = Written.

(** *** The run as a whole *)

(** What every run begins with: the line with the stored watermark, and
    the fetch. *)
Definition opening (w : World) : list Event :=
  [ Print ("Last seen tweet ID: " +++ fmt_opt (LAST_SEEN_TWEET_ID w));
    GetUsersTweets (LAST_SEEN_TWEET_ID w) 100 ].

Definition with_trace (evs : list Event) (st : State) : State :=
  {| environ := environ st; dotenv := dotenv st; gd_calls := gd_calls st;
     dotenv_calls := dotenv_calls st;
     trace := trace st ++ evs |}.

(** The state [main] is in when the source has answered. *)
Definition opened (w : World) : State := with_trace (opening w) (initial w).

(** The test [main] makes on the response. *)
Definition no_results (r : Response) : bool :=
  match meta r with
  | Some result_count => (result_count =? 0)%Z
  | None => false
  end.

(** The year of the stored [LAST_RUN_DATE], when it is there and parses. *)
Definition last_run_year (w : World) : option Z :=
  match LAST_RUN_DATE w with
  | Some s => option_map year (strptime_mdY s)
  | None => None
  end.

(** The request that puts the year header in the document. *)
Definition year_header (w : World) : Request :=
  InsertText 1 (str_int (now_year w) +++ nl).

(** The events of [doc_update_year] when the document service accepts
    the request. *)
Definition header_events (w : World) : list Event :=
  match last_run_year w with
  | Some y => if (y <? now_year w)%Z then [BatchUpdate (year_header w) true]
              else []
  | None => []
  end.

(** A run in which nothing goes wrong: the source answers with the posts
    [page] (newest first) and does not report zero results, the stored
    date of the last run parses, the document service accepts every
    request, the posts are well formed, and the [.env] file is written
    each time the code asks for it. *)
Record clean_run (w : World) (page : list Tweet) : Prop := {
  cr_fetch : exists r, get_users_tweets w (LAST_SEEN_TWEET_ID w) 100 = inl r
                       /\ no_results r = false /\ data r = Some page;
  cr_last_run : last_run_year w <> None;
  cr_docs : docs_up w;
  cr_posts : Forall well_formed page;
  cr_env : env_file_up w
}.

(** [rq] is one of the three requests of the post [t]. *)
Definition request_of (t : Tweet) (rq : Request) : Prop :=
  exists date setup punchline,
    parsed t = Some (date, setup, punchline)
    /\ In rq (requests date setup punchline).

(** What the loop over the posts of [page] can leave in the trace: the
    events of the matching posts archived to the end, oldest first, then
    the events of the post at which the loop stopped, if it did. *)
Definition loop_events (page : list Tweet) (body : list Event) : Prop :=
  exists done rest partial,
    filter matches (rev page) = map fst done ++ rest
    /\ body = flat_map archived_events done ++ partial
    /\ (partial = []
        \/ exists p, In p rest
                     /\ ((exists n, partial = broken_events p n)
                         \/ partial = unsaved_events p
                         \/ partial = failed_save_events p)).

(* ================================================================== *)
(** ** Worlds to run the code in *)

Definition pun_text (setup punchline : string) : string :=
  setup +++ nl +++ nl +++ punchline.

Definition post_101 : Tweet :=
  {| id := "101"; text := pun_text "Why did X" "Because Y";
     created_at := "2024-01-02T09:30:00.000Z" |}.

Definition post_102 : Tweet :=
  {| id := "102"; text := "Good morning";
     created_at := "2024-01-03T08:00:00.000Z" |}.

Definition post_103 : Tweet :=
  {| id := "103"; text := pun_text "Knock knock" "Who is there";
     created_at := "2024-01-04T18:45:10.000Z" |}.

Definition post_104 : Tweet :=
  {| id := "104"; text := "Back on Monday";
     created_at := "2024-01-05T07:15:00.000Z" |}.

Definition env_of (last_seen last_run : string) : Env :=
  [(KEY, last_seen); ("LAST_RUN_DATE", last_run)].

(** A world with the posts [timeline] at the source (newest first), the
    stored watermark [last_seen], the stored date [last_run], the current
    year [yr] and the document service [docs]. *)
Definition world_of (timeline : list Tweet) (last_seen last_run : string)
    (yr : Z) (docs : nat -> bool) : World :=
  {| environ0 := env_of last_seen last_run;
     dotenv0 := env_of last_seen last_run;
     now_year := yr;
     get_users_tweets := timeline_api timeline;
     docs_ok := docs;
     set_key_outcome := fun _ => Written |}.

Definition always : nat -> bool := fun _ => true.

(** A document service that refuses its [k]-th request (from 0). *)
Definition refuses (k : nat) : nat -> bool := fun n => negb (Nat.eqb n k).

(** Four posts at the source, the newest of which does not match. *)
Definition world_four : World :=
  world_of [post_104; post_103; post_102; post_101] "100" "06/01/2024" 2024
    always.

(** The next run picks up the [.env] file the last one left. *)
Definition next_run (w : World) (st : State) : World :=
  {| environ0 := dotenv st; dotenv0 := dotenv st; now_year := now_year w;
     get_users_tweets := get_users_tweets w; docs_ok := docs_ok w;
     set_key_outcome := set_key_outcome w |}.

(** Nothing new at the source, and a last run in the year before. *)
Definition world_quiet : World :=
  world_of [post_101] "101" "12/31/2023" 2024 always.

(** One new matching post, and a last run in the year before. *)
Definition world_new_year : World :=
  world_of [post_101] "100" "12/31/2023" 2024 always.

(** One new matching post, and a last run in the same year. *)
Definition world_same_year : World :=
  world_of [post_101] "100" "06/01/2024" 2024 always.

(** The lines of a text, and the third of them without its leading tab:
    the region of an entry where the specification looks for the
    punchline. *)
Definition lines (s : string) : list string := split_at (is_char LF) s.

Definition punchline_region (doc : string) : option string :=
  match nth_error (lines doc) 2 with
  | Some (String a r) => if Ascii.eqb a TAB then Some r else None
  | _ => None
  end.

(** A setup of two lines. *)
Definition two_lines : string := "a" +++ nl +++ "b".

(** One new matching post, and a document service that refuses the
    first request. *)
Definition world_docs_down : World :=
  world_of [post_101] "100" "06/01/2024" 2024 (refuses 0).

(** Three new posts, the one in the middle not matching. *)
Definition world_three : World :=
  world_of [post_103; post_102; post_101] "100" "06/01/2024" 2024 always.

(* ================================================================== *)
(** ** More worlds, and what is asked of the source *)

Definition RUN_KEY : string := "LAST_RUN_DATE".

(** The page the run fetches comes newest first: identifiers go down
    along it. *)
Definition page_newest_first (w : World) : Prop :=
  forall r page,
    get_users_tweets w (LAST_SEEN_TWEET_ID w) 100 = inl r ->
    data r = Some page ->
    StronglySorted (fun a b => older (id b) (id a)) page.

(** A source that answers with a dictionary holding neither ["meta"] nor
    ["data"], and a last run in the year before. *)
Definition world_no_data : World :=
  {| environ0 := env_of "100" "12/31/2023";
     dotenv0 := env_of "100" "12/31/2023";
     now_year := 2024;
     get_users_tweets := fun _ _ => inl {| meta := None; data := None |};
     docs_ok := always;
     set_key_outcome := fun _ => Written |}.

(** A source that raises. *)
Definition world_fetch_down : World :=
  {| environ0 := env_of "100" "12/31/2023";
     dotenv0 := env_of "100" "12/31/2023";
     now_year := 2024;
     get_users_tweets := fun _ _ => inr TweepyException;
     docs_ok := always;
     set_key_outcome := fun _ => Written |}.

(** A stored date of the last run in another format. *)
Definition world_bad_date : World :=
  world_of [post_101] "100" "2023-12-31" 2024 always.

(** A last run in the year before, and a document service that refuses
    the first request. *)
Definition world_header_refused : World :=
  world_of [post_101] "100" "12/31/2023" 2024 (refuses 0).

(** A state with quoted values in both stores. *)
Definition state_quoted : State :=
  {| environ := env_of (String DQUOTE "100") "12/31/2023";
     dotenv := env_of (String SQUOTE "100") "12/31/2023";
     gd_calls := 0; dotenv_calls := 0; trace := [] |}.

(** Three new posts, the one in the middle not matching, a last run in
    the year before, and a document service that refuses its request
    number 5: after the year header and the three writes of the oldest
    post, the second write of the second post archived. *)
Definition world_write_refused : World :=
  world_of [post_103; post_102; post_101] "100" "12/31/2023" 2024 (refuses 5).

(** The world [w] with a [.env] file whose [n]-th write has the outcome
    [o], the others being made. *)
Definition with_env_file (w : World) (n : nat) (o : Outcome) : World :=
  {| environ0 := environ0 w; dotenv0 := dotenv0 w; now_year := now_year w;
     get_users_tweets := get_users_tweets w; docs_ok := docs_ok w;
     set_key_outcome := fun k => if Nat.eqb k n then o else Written |}.

(** An identifier with a null character in it. *)
Definition id_with_nul : string := String "1" (String NUL "3").

(* ================================================================== *)
(** * Properties *)

(** ** Strings *)

Lemma length_app (s t : string) :
  String.length (s +++ t) = (String.length s + String.length t)%nat.
Proof. induction s as [|a s IH]; simpl; [reflexivity | now rewrite IH]. Qed.

Lemma app_assoc_s (s t u : string) : (s +++ t) +++ u = s +++ t +++ u.
Proof. induction s as [|a s IH]; simpl; [reflexivity | now rewrite IH]. Qed.

Lemma app_empty_r (s : string) : s +++ EmptyString = s.
Proof. induction s as [|a s IH]; simpl; [reflexivity | now rewrite IH]. Qed.

Lemma len_app (s t : string) : len (s +++ t) = (len s + len t)%Z.
Proof. unfold len. rewrite length_app. lia. Qed.

Lemma line_after_line (s : string) : s = line s +++ after_line s.
Proof.
  induction s as [|a s IH]; simpl; [reflexivity|].
  destruct (Ascii.eqb a LF); simpl; [reflexivity | now f_equal].
Qed.

Lemma single_line_line (s : string) : single_line (line s) = true.
Proof.
  induction s as [|a s IH]; simpl; [reflexivity|].
  destruct (Ascii.eqb a LF) eqn:Ea; simpl; [reflexivity | now rewrite Ea].
Qed.

Lemma after_line_head (s : string) (a : ascii) (r : string) :
  after_line s = String a r -> a = LF.
Proof.
  induction s as [|b s IH]; simpl; [discriminate|].
  destruct (Ascii.eqb b LF) eqn:Eb; [|exact IH].
  intros H. injection H as -> _. now apply Ascii.eqb_eq.
Qed.

Lemma line_of_single (l : string) :
  single_line l = true -> line l = l /\ after_line l = EmptyString.
Proof.
  induction l as [|a l IH]; simpl; [now split|].
  destruct (Ascii.eqb a LF); simpl; [discriminate|].
  intros H. destruct (IH H) as [-> ->]. now split.
Qed.

Lemma line_of_app (l r : string) :
  single_line l = true ->
  line (l +++ String LF r) = l /\ after_line (l +++ String LF r) = String LF r.
Proof.
  induction l as [|a l IH]; simpl; [now split|].
  destruct (Ascii.eqb a LF); simpl; [discriminate|].
  intros H. destruct (IH H) as [-> ->]. now split.
Qed.

Lemma length_line (s : string) :
  (String.length s - String.length (after_line s))%nat
  = String.length (line s).
Proof. rewrite (line_after_line s) at 1. rewrite length_app. lia. Qed.

Lemma substring_line (s : string) :
  substring 0 (String.length (line s)) s = line s.
Proof.
  induction s as [|a s IH]; simpl; [reflexivity|].
  destruct (Ascii.eqb a LF); simpl; [reflexivity | now rewrite IH].
Qed.

Lemma consumed_after_line (s : string) : consumed s (after_line s) = line s.
Proof. unfold consumed. rewrite length_line. apply substring_line. Qed.

(** ** The pattern *)

(** A greedy [.+] followed by something that cannot start with a
    character [.] takes: giving characters back never helps, the match is
    decided at the end of the line. *)
Lemma many_any_line (R : Type) (k : cont R) :
  (forall a s m, Ascii.eqb a LF = false -> k (String a s) m = None) ->
  forall s m, many AnyChar s m k = k (after_line s) m.
Proof.
  intros Hk s m. induction s as [|a s IH]; simpl; [reflexivity|].
  destruct (Ascii.eqb a LF) eqn:Ea; simpl; [reflexivity|].
  rewrite IH. destruct (k (after_line s) m) eqn:Ek; [reflexivity|].
  now apply Hk.
Qed.

Lemma at_dollar_head (a : ascii) (s : string) :
  Ascii.eqb a LF = false -> at_dollar (String a s) = false.
Proof. intros Ea. destruct s; simpl; [exact Ea | reflexivity]. Qed.

Lemma pun_match_split (t : string) : pun_match t = pun_split t.
Proof.
  unfold pun_match, re_match, pun_format_regex, pun_split. cbn [run].
  destruct t as [|a t]; [reflexivity|].
  destruct (accepts AnyChar a) eqn:Ea; [|reflexivity].
  rewrite many_any_line
    by (intros a0 s m Ha0; simpl; now rewrite Ha0).
  assert (Hc : consumed (String a t) (after_line t) = line (String a t)).
  { rewrite <- consumed_after_line. simpl in Ea |- *.
    now destruct (Ascii.eqb a LF). }
  assert (Ha : after_line (String a t) = after_line t).
  { simpl in Ea |- *. now destruct (Ascii.eqb a LF). }
  rewrite Ha.
  destruct (after_line t) as [|a0 [|a1 [|a2 p]]] eqn:Et;
    try reflexivity.
  - simpl. now destruct (Ascii.eqb a0 LF).
  - simpl. destruct (Ascii.eqb a0 LF), (Ascii.eqb a1 LF); reflexivity.
  - apply after_line_head in Et. subst a0.
    change (accepts (Chr LF) LF) with true. cbv iota.
    unfold accepts at 1.
    destruct (Ascii.eqb a1 LF); [|reflexivity].
    destruct (accepts AnyChar a2) eqn:Ea2; [|reflexivity].
    rewrite many_any_line
      by (intros a0 s m Ha0; now rewrite at_dollar_head).
    assert (Hp : after_line (String a2 p) = after_line p).
    { simpl in Ea2 |- *. now destruct (Ascii.eqb a2 LF). }
    rewrite Hp. simpl andb.
    destruct (at_dollar (after_line p)); [|reflexivity].
    unfold group; simpl lookup. rewrite Hc.
    rewrite <- Hp, consumed_after_line. reflexivity.
Qed.

Lemma has_blank_line_app (s r : string) :
  has_blank_line (s +++ nl +++ nl +++ r) = true.
Proof.
  induction s as [|a s IH]; [reflexivity|].
  change (String a s +++ nl +++ nl +++ r)
    with (String a (s +++ nl +++ nl +++ r)).
  remember (s +++ nl +++ nl +++ r) as u eqn:Eu.
  destruct u as [|b u].
  - destruct s; discriminate.
  - simpl. simpl in IH. rewrite IH. apply orb_true_r.
Qed.

Lemma pun_split_sound (t setup punchline : string) :
  pun_split t = Some (setup, punchline) ->
  setup <> EmptyString /\ punchline <> EmptyString
  /\ single_line setup = true /\ single_line punchline = true
  /\ (t = setup +++ nl +++ nl +++ punchline
      \/ t = setup +++ nl +++ nl +++ punchline +++ nl).
Proof.
  unfold pun_split. destruct t as [|a t]; [discriminate|].
  destruct (accepts AnyChar a) eqn:Ea; [|discriminate].
  pose proof (line_after_line (String a t)) as Ht.
  pose proof (single_line_line (String a t)) as Lt.
  assert (Nt : line (String a t) <> EmptyString).
  { simpl in Ea |- *. now destruct (Ascii.eqb a LF). }
  destruct (after_line (String a t)) as [|a0 [|a1 [|a2 p]]] eqn:Et;
    try discriminate.
  destruct (Ascii.eqb a1 LF) eqn:E1; [|discriminate].
  destruct (accepts AnyChar a2) eqn:E2; [|discriminate].
  pose proof (line_after_line (String a2 p)) as Hp.
  pose proof (single_line_line (String a2 p)) as Lp.
  assert (Np : line (String a2 p) <> EmptyString).
  { simpl in E2 |- *. now destruct (Ascii.eqb a2 LF). }
  destruct (at_dollar (after_line (String a2 p))) eqn:E3; [|discriminate].
  pose proof (after_line_head _ _ _ Et) as ->.
  apply Ascii.eqb_eq in E1. subst a1.
  generalize dependent (line (String a2 p)).
  generalize dependent (line (String a t)).
  intros l1 Ht Lt Nt l2 Hp Lp Np H.
  cbn [andb] in H. injection H as <- <-.
  repeat split; auto.
  rewrite Ht.
  destruct (after_line (String a2 p)) as [|b [|c q]].
  - left. rewrite app_empty_r in Hp. now rewrite Hp.
  - right. simpl in E3. apply Ascii.eqb_eq in E3. subst b. now rewrite Hp.
  - discriminate.
Qed.

Lemma pun_split_complete (setup punchline tail : string) :
  setup <> EmptyString -> punchline <> EmptyString ->
  single_line setup = true -> single_line punchline = true ->
  tail = EmptyString \/ tail = nl ->
  pun_split (setup +++ nl +++ nl +++ punchline +++ tail)
  = Some (setup, punchline).
Proof.
  intros Hs Hp Ls Lp Ht.
  assert (Hl : line (punchline +++ tail) = punchline
               /\ after_line (punchline +++ tail) = tail).
  { destruct Ht as [-> | ->].
    - rewrite app_empty_r. now apply line_of_single.
    - now apply line_of_app. }
  destruct Hl as [Hl1 Hl2].
  destruct (line_of_app setup (nl +++ punchline +++ tail) Ls) as [H1 H2].
  change (String LF (nl +++ punchline +++ tail))
    with (nl +++ nl +++ punchline +++ tail) in H1, H2.
  unfold pun_split. rewrite H1, H2.
  destruct setup as [|a s]; [contradiction|].
  change ((String a s) +++ nl +++ nl +++ punchline +++ tail)
    with (String a (s +++ nl +++ nl +++ punchline +++ tail)).
  cbv beta iota.
  assert (Ea : accepts AnyChar a = true).
  { simpl in Ls |- *. now destruct (Ascii.eqb a LF). }
  rewrite Ea.
  destruct punchline as [|c p]; [contradiction|].
  change (nl +++ nl +++ String c p +++ tail)
    with (String LF (String LF (String c (p +++ tail)))).
  cbv beta iota.
  change (String c (p +++ tail)) with (String c p +++ tail).
  rewrite Hl1, Hl2.
  assert (Ec : accepts AnyChar c = true).
  { simpl in Lp |- *. now destruct (Ascii.eqb c LF). }
  rewrite Ec.
  destruct Ht as [-> | ->]; reflexivity.
Qed.

Example pun_match_ex1 :
  pun_match ("a" +++ nl +++ nl +++ "b") = Some ("a", "b").
Proof. reflexivity. Qed.

Example pun_match_ex2 :
  pun_match ("ab" +++ nl +++ nl +++ "cd" +++ nl) = Some ("ab", "cd").
Proof. reflexivity. Qed.

Example pun_match_ex3 : pun_match two_line_setup = None.
Proof. reflexivity. Qed.

(** C1, as the specification words it, fails on the code: a text of three
    blocks has the shape the specification asks for (a blank line with
    non-empty text on both sides, no blank line after it), and the pattern
    does not match it, because [.] stops at the first newline. *)
Lemma match_last_blank_line_counterexample :
  spec_pun_shape three_blocks ("a" +++ nl +++ nl +++ "b") "c"
  /\ pun_match three_blocks = None.
Proof.
  split; [|reflexivity].
  repeat split; discriminate.
Qed.

(** C1, amended: [match(text)] returns a pair exactly when [text] is one
    non-empty line (the setup), a blank line, and one non-empty line (the
    punchline), followed by nothing or by a single final newline; the pair
    is then that setup and that punchline.  A text without a blank line is
    never matched. *)
Theorem match_two_lines (t setup punchline : string) :
  (pun_match t = Some (setup, punchline) <->
   setup <> EmptyString /\ punchline <> EmptyString
   /\ single_line setup = true /\ single_line punchline = true
   /\ (t = setup +++ nl +++ nl +++ punchline
       \/ t = setup +++ nl +++ nl +++ punchline +++ nl))
  /\ (has_blank_line t = false -> pun_match t = None).
Proof.
  split.
  - rewrite pun_match_split. split.
    + apply pun_split_sound.
    + intros (Hs & Hp & Ls & Lp & [-> | ->]).
      * rewrite <- (app_empty_r punchline) at 1.
        apply pun_split_complete; auto.
      * apply pun_split_complete; auto.
  - intros Hb. destruct (pun_match t) as [[s p]|] eqn:Em; [|reflexivity].
    rewrite pun_match_split in Em. apply pun_split_sound in Em.
    destruct Em as (_ & _ & _ & _ & [-> | ->]).
    + now rewrite has_blank_line_app in Hb.
    + now rewrite has_blank_line_app in Hb.
Qed.

Lemma match_two_lines_witness :
  (pun_match "no blank line" = Some ("a", "b") <->
   "a" <> EmptyString /\ "b" <> EmptyString
   /\ single_line "a" = true /\ single_line "b" = true
   /\ ("no blank line" = "a" +++ nl +++ nl +++ "b"
       \/ "no blank line" = "a" +++ nl +++ nl +++ "b" +++ nl))
  /\ pun_match "no blank line" = None.
Proof.
  destruct (match_two_lines "no blank line" "a" "b") as [H1 H2].
  split; [exact H1 | apply H2; reflexivity].
Defined.

(** ** One pass of the loop of [archive_tweets] *)

Lemma pun_match_none (s : string) :
  pun_match s = None -> re_match pun_format_regex s = None.
Proof.
  unfold pun_match. now destruct (re_match pun_format_regex s).
Qed.

Lemma pun_match_some (s setup punchline : string) :
  pun_match s = Some (setup, punchline) ->
  exists result, re_match pun_format_regex s = Some result
                 /\ group result 1 = setup /\ group result 2 = punchline.
Proof.
  unfold pun_match. destruct (re_match pun_format_regex s) as [m|];
    [|discriminate].
  intros H. injection H as <- <-. now exists m.
Qed.

Lemma matches_false (t : Tweet) :
  matches t = false -> pun_match (text t) = None.
Proof.
  unfold matches, is_pun. now destruct (pun_match (text t)).
Qed.

Lemma matches_true (t : Tweet) :
  matches t = true -> exists setup punchline,
    pun_match (text t) = Some (setup, punchline).
Proof.
  unfold matches, is_pun. destruct (pun_match (text t)) as [[s p]|];
    [|discriminate].
  intros _. now exists s, p.
Qed.

(** A post whose text does not match is passed over: nothing changes. *)
Lemma archive_tweet_skip (w : World) (t : Tweet) (st : State) :
  matches t = false -> archive_tweet w t st = (st, inl tt).
Proof.
  intros H. apply matches_false, pun_match_none in H.
  unfold archive_tweet. now rewrite H.
Qed.

(** A matching post whose timestamp does not parse stops the run before
    anything is written. *)
Lemma archive_tweet_bad_date (w : World) (t : Tweet) (st : State) :
  matches t = true -> strptime_iso (created_at t) = None ->
  archive_tweet w t st = (st, inr ValueError).
Proof.
  intros H Hd. apply matches_true in H. destruct H as (s & p & H).
  apply pun_match_some in H. destruct H as (m & Hm & _ & _).
  unfold archive_tweet. rewrite Hm, Hd. reflexivity.
Qed.

(** One step of evaluation of the monadic code, on a state given by its
    five fields. *)
Ltac step :=
  cbv beta iota zeta delta
    [log_tweet_info doc_add_text doc_format_text doc_italicize_punchline
     save_last_seen_id save_last_run_date print batchUpdate environ_set
     environ_get dotenv_set_key emit expect bind ret raise
     environ dotenv gd_calls dotenv_calls trace].

(** A matching post: three writes, each of which may be refused, then
    the save, which stops at the environment when the identifier holds a
    null character and whose write of the [.env] file may be skipped or
    fail. *)
Lemma archive_tweet_run (w : World) (t : Tweet) (st : State)
    (date setup punchline : string) :
  parsed t = Some (date, setup, punchline) ->
  archive_tweet w t st =
    let k := gd_calls st in
    if docs_ok w k then
      if docs_ok w (S k) then
        if docs_ok w (S (S k)) then
          if has_nul (strip_quotes (id t)) then
            ({| environ := environ st; dotenv := dotenv st;
                gd_calls := S (S (S k)); dotenv_calls := dotenv_calls st;
                trace := trace st ++ unsaved_events t |}, inr ValueError)
          else
            match set_key_outcome w (dotenv_calls st) with
            | Written =>
                ({| environ := env_set KEY (strip_quotes (id t)) (environ st);
                    dotenv := env_set KEY (strip_quotes (strip_quotes (id t)))
                                (dotenv st);
                    gd_calls := S (S (S k));
                    dotenv_calls := S (dotenv_calls st);
                    trace := trace st ++ post_events t |}, inl tt)
            | Skipped =>
                ({| environ := env_set KEY (strip_quotes (id t)) (environ st);
                    dotenv := dotenv st;
                    gd_calls := S (S (S k));
                    dotenv_calls := S (dotenv_calls st);
                    trace := trace st ++ post_events_skipped t |}, inl tt)
            | Failed =>
                ({| environ := env_set KEY (strip_quotes (id t)) (environ st);
                    dotenv := dotenv st;
                    gd_calls := S (S (S k));
                    dotenv_calls := S (dotenv_calls st);
                    trace := trace st ++ failed_save_events t |}, inr OSError)
            end
        else
          ({| environ := environ st; dotenv := dotenv st;
              gd_calls := S (S (S k)); dotenv_calls := dotenv_calls st;
              trace := trace st ++ broken_events t 2 |}, inr HttpError)
      else
        ({| environ := environ st; dotenv := dotenv st;
            gd_calls := S (S k); dotenv_calls := dotenv_calls st;
            trace := trace st ++ broken_events t 1 |}, inr HttpError)
    else
      ({| environ := environ st; dotenv := dotenv st;
          gd_calls := S k; dotenv_calls := dotenv_calls st;
          trace := trace st ++ broken_events t 0 |}, inr HttpError).
Proof.
  intros Hp.
  unfold post_events, post_events_skipped, unsaved_events,
    failed_save_events, broken_events.
  rewrite Hp. unfold parsed in Hp.
  destruct (pun_match (text t)) as [[s p]|] eqn:Hm; [|discriminate].
  destruct (strptime_iso (created_at t)) as [d|] eqn:Hd; [|discriminate].
  injection Hp as <- <- <-.
  apply pun_match_some in Hm. destruct Hm as (m & Hm & <- & <-).
  unfold archive_tweet. rewrite Hm, Hd.
  destruct st as [env dot calls wcalls tr].
  step.
  destruct (docs_ok w calls); step;
    [|repeat rewrite <- app_assoc; reflexivity].
  destruct (docs_ok w (S calls)); step;
    [|repeat rewrite <- app_assoc; reflexivity].
  destruct (docs_ok w (S (S calls))); step;
    [|repeat rewrite <- app_assoc; reflexivity].
  destruct (has_nul (strip_quotes (id t))); step;
    [repeat rewrite <- app_assoc; reflexivity|].
  change (env_get "LAST_SEEN_TWEET_ID"
            (env_set "LAST_SEEN_TWEET_ID" (strip_quotes (id t)) env))
    with (Some (strip_quotes (id t))).
  step.
  destruct (set_key_outcome w wcalls); step;
    repeat rewrite <- app_assoc; reflexivity.
Qed.

(** ** The loop of [archive_tweets] *)

Lemma parsed_of_date (t : Tweet) (d : datetime) :
  matches t = true -> strptime_iso (created_at t) = Some d ->
  exists date setup punchline, parsed t = Some (date, setup, punchline).
Proof.
  intros Hm Hd. apply matches_true in Hm. destruct Hm as (s & p & Hm).
  unfold parsed. rewrite Hm, Hd. now exists (strftime_mdY d), s, p.
Qed.

(** The loop, whatever the document service and the [.env] file answer:
    the matching posts split into those archived to the end ([done],
    oldest first, each with the fate of its write of the [.env] file) and
    those left ([rest]); the trace grows by the events of the posts of
    [done], one post after the other, then by what the post the loop
    stopped at left; the [.env] file holds the saves that were written and
    nothing else, the environment those of [done] and, when the loop
    stopped on the [.env] file, that of the post it stopped at. *)
Lemma loop_shape (w : World) (l : list Tweet) :
  forall st : State,
  exists done rest partial,
    filter matches l = map fst done ++ rest
    /\ Forall (archived w) done
    /\ trace (fst (for_each (archive_tweet w) l st))
       = trace st ++ flat_map archived_events done ++ partial
    /\ dotenv (fst (for_each (archive_tweet w) l st))
       = dotenv_after (written done) (dotenv st)
    /\ match snd (for_each (archive_tweet w) l st) with
       | inl _ =>
           rest = [] /\ partial = []
           /\ environ (fst (for_each (archive_tweet w) l st))
              = environ_after (map fst done) (environ st)
       | inr e =>
           exists p rest',
             rest = p :: rest' /\ stopped_at w p partial e
             /\ environ (fst (for_each (archive_tweet w) l st))
                = environ_after (map fst done ++ set_not_written e p)
                    (environ st)
       end.
Proof.
  induction l as [|t l IH]; intros st.
  - exists [], [], []. cbn. rewrite app_nil_r. repeat split; auto.
  - cbn [for_each filter]. unfold bind at 1 2 3 4 5.
    destruct (matches t) eqn:Hm.
    + destruct (strptime_iso (created_at t)) as [d|] eqn:Hd.
      * destruct (parsed_of_date t d Hm Hd) as (date & s & p & Hp).
        rewrite (archive_tweet_run w t st date s p Hp). cbv zeta.
        assert (Hstop : forall st' partial e,
                  stopped_at w t partial e ->
                  trace st' = trace st ++ partial ->
                  dotenv st' = dotenv st ->
                  environ st'
                  = environ_after (set_not_written e t) (environ st) ->
                  exists done rest partial0,
                    t :: filter matches l = map fst done ++ rest
                    /\ Forall (archived w) done
                    /\ trace st'
                       = trace st ++ flat_map archived_events done ++ partial0
                    /\ dotenv st' = dotenv_after (written done) (dotenv st)
                    /\ exists p0 rest',
                         rest = p0 :: rest' /\ stopped_at w p0 partial0 e
                         /\ environ st'
                            = environ_after
                                (map fst done ++ set_not_written e p0)
                                (environ st)).
        { intros st' partial e Hs Ht Hv He.
          exists [], (t :: filter matches l), partial.
          repeat split; auto. exists t, (filter matches l). auto. }
        destruct (docs_ok w (gd_calls st)) eqn:K0;
          [destruct (docs_ok w (S (gd_calls st))) eqn:K1;
           [destruct (docs_ok w (S (S (gd_calls st)))) eqn:K2|]|].
        -- destruct (has_nul (strip_quotes (id t))) eqn:Hnul.
           { cbn [fst snd]. apply (Hstop _ (unsaved_events t) ValueError);
               auto.
             right. right. left. repeat split; auto. congruence. }
           destruct (set_key_outcome w (dotenv_calls st)) eqn:Ho.
           ++ match goal with
              | |- context [for_each _ l ?s] =>
                  destruct (IH s) as (done & rest & partial
                                      & Hf & Hd' & Ht & Hv & Hr)
              end.
              exists ((t, true) :: done), rest, partial.
              rewrite Ht, Hv, Hf. cbn [trace environ dotenv] in *.
              repeat split.
              ** constructor; [|exact Hd'].
                 repeat split; [cbn; congruence | exact Hnul|].
                 exists (dotenv_calls st). exact Ho.
              ** cbn [flat_map archived_events fst snd].
                 now rewrite <- !app_assoc.
              ** exact Hr.
           ++ match goal with
              | |- context [for_each _ l ?s] =>
                  destruct (IH s) as (done & rest & partial
                                      & Hf & Hd' & Ht & Hv & Hr)
              end.
              exists ((t, false) :: done), rest, partial.
              rewrite Ht, Hv, Hf. cbn [trace environ dotenv] in *.
              repeat split.
              ** constructor; [|exact Hd'].
                 repeat split; [cbn; congruence | exact Hnul|].
                 exists (dotenv_calls st). exact Ho.
              ** cbn [flat_map archived_events fst snd].
                 now rewrite <- !app_assoc.
              ** exact Hr.
           ++ cbn [fst snd].
              apply (Hstop _ (failed_save_events t) OSError); auto.
              right. right. right. repeat split; auto; [congruence|].
              now exists (dotenv_calls st).
        -- cbn [fst snd].
           apply (Hstop _ (broken_events t 2) HttpError); auto.
           right. left. repeat split; [congruence|].
           exists 2%nat, (S (S (gd_calls st))). auto.
        -- cbn [fst snd].
           apply (Hstop _ (broken_events t 1) HttpError); auto.
           right. left. repeat split; [congruence|].
           exists 1%nat, (S (gd_calls st)). auto.
        -- cbn [fst snd].
           apply (Hstop _ (broken_events t 0) HttpError); auto.
           right. left. repeat split; [congruence|].
           exists 0%nat, (gd_calls st). auto.
      * rewrite (archive_tweet_bad_date w t st Hm Hd).
        exists [], (t :: filter matches l), [].
        cbn. rewrite app_nil_r. repeat split; auto.
        exists t, (filter matches l). split; [reflexivity|].
        split; [left; auto | reflexivity].
    + rewrite (archive_tweet_skip w t st Hm).
      destruct (IH st) as (done & rest & partial & H).
      exists done, rest, partial. exact H.
Qed.

(** ** [main], [archive_tweets] and [doc_update_year] unfolded *)

Lemma doc_update_year_cases (w : World) (st : State) :
  doc_update_year w st =
    match LAST_RUN_DATE w with
    | None => (st, inr TypeError)
    | Some s =>
        match strptime_mdY s with
        | None => (st, inr ValueError)
        | Some d =>
            if (year d <? now_year w)%Z
            then batchUpdate w (year_header w) st
            else (st, inl tt)
        end
    end.
Proof.
  unfold doc_update_year, bind, expect, ret, raise, doc_add_text.
  destruct (LAST_RUN_DATE w) as [s|]; [|reflexivity].
  destruct (strptime_mdY s) as [d|]; [|reflexivity].
  destruct (year d <? now_year w)%Z; reflexivity.
Qed.

Lemma archive_tweets_unfold (w : World) (r : Response) (st : State) :
  archive_tweets w r st =
    match doc_update_year w st with
    | (st1, inr e) => (st1, inr e)
    | (st1, inl _) =>
        match data r with
        | None => (st1, inr KeyError)
        | Some page => for_each (archive_tweet w) (rev page) st1
        end
    end.
Proof.
  unfold archive_tweets, bind at 1.
  destruct (doc_update_year w st) as [st1 [[]|e]]; [|reflexivity].
  unfold bind, expect, ret, raise.
  destruct (data r); reflexivity.
Qed.

Lemma script_unfold (w : World) :
  script w =
    match get_users_tweets w (LAST_SEEN_TWEET_ID w) 100 with
    | inr e => (opened w, inr e)
    | inl r =>
        if no_results r
        then (with_trace [Print "No new tweets found."] (opened w), inl None)
        else match archive_tweets w r (opened w) with
             | (st', inl _) => (st', inl None)
             | (st', inr e) => (st', inr e)
             end
    end.
Proof.
  unfold script, main, twt_auth_passed, main_with, get_tweets.
  cbn [last_seen_tweet_id_found].
  unfold bind at 1. unfold print at 1. unfold emit at 1.
  cbn [initial environ dotenv gd_calls dotenv_calls trace app].
  unfold bind at 1. unfold bind at 1. unfold emit at 1.
  cbn [environ dotenv gd_calls dotenv_calls trace app].
  destruct (get_users_tweets w (LAST_SEEN_TWEET_ID w) 100) as [r|e];
    [|reflexivity].
  unfold ret at 1. unfold no_results.
  destruct (match meta r with
            | Some result_count => (result_count =? 0)%Z
            | None => false
            end).
  - reflexivity.
  - unfold bind at 1.
    change {| environ := environ0 w; dotenv := dotenv0 w; gd_calls := 0;
              dotenv_calls := 0;
              trace := [Print ("Last seen tweet ID: "
                               +++ fmt_opt (LAST_SEEN_TWEET_ID w));
                        GetUsersTweets (LAST_SEEN_TWEET_ID w) 100] |}
      with (opened w).
    destruct (archive_tweets w r (opened w)) as [st' [[]|e]]; reflexivity.
Qed.

(** ** The stores after the saves *)

Lemma env_get_set (v : string) (e : Env) :
  env_get KEY (env_set KEY v e) = Some v.
Proof. reflexivity. Qed.

Lemma dotenv_after_last (done : list Tweet) (e : Env) :
  env_get KEY (dotenv_after done e) =
    match rev done with
    | t :: _ => Some (strip_quotes (strip_quotes (id t)))
    | [] => env_get KEY e
    end.
Proof.
  induction done as [|t done IH] using rev_ind; [reflexivity|].
  unfold dotenv_after. rewrite fold_left_app, rev_app_distr. reflexivity.
Qed.

Lemma is_digit_not_quote (a : ascii) : is_digit a = true -> is_quote a = false.
Proof.
  destruct a as [[] [] [] [] [] [] [] []]; try discriminate; reflexivity.
Qed.

Lemma digits_from_some (s : string) :
  forall acc v, digits_from acc s = Some v ->
  lstrip_quotes s = s /\ rstrip_quotes s = s.
Proof.
  induction s as [|a s IH]; intros acc v H; [now split|].
  cbn [digits_from] in H. destruct (is_digit a) eqn:Ea; [|discriminate].
  apply is_digit_not_quote in Ea.
  destruct (IH _ _ H) as [_ Hr]. split.
  - cbn. now rewrite Ea.
  - cbn [rstrip_quotes]. rewrite Hr. destruct s; [now rewrite Ea | reflexivity].
Qed.

(** Stripping quotes leaves a numeric identifier as it is. *)
Lemma strip_numeric (s : string) : numeric s = true -> strip_quotes s = s.
Proof.
  unfold numeric, number. destruct s as [|a s]; [discriminate|].
  destruct (digits_from 0 (String a s)) as [v|] eqn:H; [|discriminate].
  intros _. apply digits_from_some in H. destruct H as [Hl Hr].
  unfold strip_quotes. now rewrite Hl, Hr.
Qed.

Lemma is_digit_not_nul (a : ascii) :
  is_digit a = true -> Ascii.eqb a NUL = false.
Proof.
  destruct a as [[] [] [] [] [] [] [] []]; try discriminate; reflexivity.
Qed.

Lemma digits_from_no_nul (s : string) :
  forall acc v, digits_from acc s = Some v -> has_nul s = false.
Proof.
  induction s as [|a s IH]; intros acc v H; [reflexivity|].
  cbn [digits_from] in H. destruct (is_digit a) eqn:Ea; [|discriminate].
  cbn [has_nul]. rewrite (is_digit_not_nul a Ea). exact (IH _ _ H).
Qed.

(** A numeric identifier holds no null character, stripped or not. *)
Lemma numeric_no_nul (s : string) :
  numeric s = true -> has_nul (strip_quotes s) = false.
Proof.
  intros H. rewrite (strip_numeric s H). revert H.
  unfold numeric, number. destruct s as [|a s]; [discriminate|].
  destruct (digits_from 0 (String a s)) as [v|] eqn:E; [|discriminate].
  intros _. exact (digits_from_no_nul _ _ _ E).
Qed.

Lemma find_filter {A : Type} (f : A -> bool) (l : list A) :
  find f l = hd_error (filter f l).
Proof.
  induction l as [|a l IH]; [reflexivity|].
  cbn. destruct (f a); [reflexivity | exact IH].
Qed.

(** ** Runs in which nothing goes wrong *)

(** When every save reached the [.env] file, the posts archived are the
    posts written, and their events are those of [post_events]. *)
Lemma all_written (done : list (Tweet * bool)) :
  Forall (fun d => snd d = true) done ->
  written done = map fst done
  /\ flat_map archived_events done = flat_map post_events (map fst done).
Proof.
  unfold written.
  induction 1 as [|[t b] done Hb _ [IH1 IH2]]; [now split|].
  cbn in Hb. subst b. cbn [filter map flat_map snd fst archived_events].
  now rewrite IH1, IH2.
Qed.

Lemma archived_written (w : World) (done : list (Tweet * bool)) :
  env_file_up w -> Forall (archived w) done ->
  Forall (fun d => snd d = true) done.
Proof.
  intros Hup H. eapply Forall_impl; [|exact H].
  intros [t []] (_ & _ & k & Hk); [reflexivity|].
  cbn in Hk. rewrite Hup in Hk. discriminate.
Qed.

(** With a document service that accepts every request, a [.env] file
    that is written each time and posts that are well formed, the loop
    reaches its end and archives every matching post. *)
Lemma loop_clean (w : World) (l : list Tweet) (st : State) :
  docs_up w -> env_file_up w -> Forall well_formed l ->
  snd (for_each (archive_tweet w) l st) = inl tt
  /\ trace (fst (for_each (archive_tweet w) l st))
     = trace st ++ flat_map post_events (filter matches l)
  /\ environ (fst (for_each (archive_tweet w) l st))
     = environ_after (filter matches l) (environ st)
  /\ dotenv (fst (for_each (archive_tweet w) l st))
     = dotenv_after (filter matches l) (dotenv st).
Proof.
  intros Hup Henv Hwf.
  destruct (loop_shape w l st)
    as (done & rest & partial & Hf & Hd & Ht & Hv & Hr).
  destruct (all_written done (archived_written w done Henv Hd)) as [Hw He].
  destruct (snd (for_each (archive_tweet w) l st)) as [[]|e].
  - destruct Hr as (-> & -> & Hn). rewrite app_nil_r in Hf, Ht.
    rewrite Hf, Ht, Hv, Hn, Hw, He. auto.
  - exfalso. destruct Hr as (p & rest' & -> & Hs & _).
    assert (Hin : In p (filter matches l)).
    { rewrite Hf. apply in_or_app. right. now left. }
    apply filter_In in Hin. destruct Hin as [Hin Hm].
    rewrite Forall_forall in Hwf. destruct (Hwf p Hin) as [Hnum Hdate].
    destruct Hs as [(_ & Hnone & _)
                   | [(_ & _ & n & k & _ & Hk & _)
                     | [(_ & _ & Hnul & _) | (_ & _ & (k & Hk) & _)]]].
    + now apply Hdate.
    + rewrite Hup in Hk. discriminate.
    + rewrite (numeric_no_nul _ Hnum) in Hnul. discriminate.
    + rewrite Henv in Hk. discriminate.
Qed.

Lemma clean_run_shape (w : World) (page : list Tweet) :
  clean_run w page ->
  snd (script w) = inl None
  /\ trace (fst (script w))
     = opening w ++ header_events w
       ++ flat_map post_events (filter matches (rev page))
  /\ environ (fst (script w))
     = environ_after (filter matches (rev page)) (environ0 w)
  /\ dotenv (fst (script w))
     = dotenv_after (filter matches (rev page)) (dotenv0 w).
Proof.
  intros [(r & Hf & Hn & Hd) Hy Hup Hwf Henv].
  rewrite script_unfold, Hf, Hn, archive_tweets_unfold,
    doc_update_year_cases, Hd.
  unfold header_events. unfold last_run_year in *.
  destruct (LAST_RUN_DATE w) as [s|]; [|contradiction].
  destruct (strptime_mdY s) as [d|]; [|contradiction].
  cbn [option_map].
  assert (Hwf' : Forall well_formed (rev page)).
  { rewrite Forall_forall in *. intros t Ht. apply Hwf.
    now apply in_rev. }
  destruct (year d <? now_year w)%Z.
  - unfold batchUpdate. rewrite Hup.
    match goal with
    | |- context [for_each _ _ ?s] =>
        destruct (loop_clean w (rev page) s Hup Henv Hwf')
          as (H1 & H2 & H3 & H4);
        destruct (for_each (archive_tweet w) (rev page) s) as [st' [[]|e]];
        cbn [fst snd] in *; [|discriminate]
    end.
    cbn [trace environ dotenv opened with_trace initial] in *.
    rewrite H2, H3, H4. repeat split.
  - destruct (loop_clean w (rev page) (opened w) Hup Henv Hwf')
      as (H1 & H2 & H3 & H4).
    destruct (for_each (archive_tweet w) (rev page) (opened w))
      as [st' [[]|e]]; cbn [fst snd] in *; [|discriminate].
    cbn [trace environ dotenv opened with_trace initial] in *.
    rewrite H2, H3, H4. repeat split.
Qed.

(** ** The trace of any run *)

Lemma loop_events_of_shape (w : World) (page : list Tweet) (st : State) :
  exists body,
    trace (fst (for_each (archive_tweet w) (rev page) st)) = trace st ++ body
    /\ loop_events page body.
Proof.
  destruct (loop_shape w (rev page) st)
    as (done & rest & partial & Hf & _ & Ht & _ & Hr).
  exists (flat_map archived_events done ++ partial). split; [exact Ht|].
  exists done, rest, partial. repeat split; auto.
  destruct (snd (for_each (archive_tweet w) (rev page) st)) as [[]|e].
  - left. apply Hr.
  - destruct Hr as (p & rest' & -> & Hs & _).
    destruct Hs as [(_ & _ & ->)
                   | [(_ & _ & n & k & _ & _ & ->)
                     | [(_ & _ & _ & ->) | (_ & _ & _ & ->)]]].
    + now left.
    + right. exists p. split; [now left|]. left. now exists n.
    + right. exists p. split; [now left|]. right. now left.
    + right. exists p. split; [now left|]. right. now right.
Qed.

(** Every run starts with the console line and the fetch; what follows
    depends on the answer of the source, on the stored date of the last
    run, and on the document service. *)
Lemma script_trace (w : World) :
  exists tail,
    trace (fst (script w)) = opening w ++ tail
    /\ match get_users_tweets w (LAST_SEEN_TWEET_ID w) 100 with
       | inr _ => tail = []
       | inl r =>
           if no_results r then tail = [Print "No new tweets found."]
           else
             match last_run_year w with
             | None => tail = []
             | Some y =>
                 exists body,
                   tail = (if (y <? now_year w)%Z
                           then [BatchUpdate (year_header w) (docs_ok w 0)]
                           else []) ++ body
                   /\ (body = []
                       \/ exists page, data r = Some page
                                       /\ loop_events page body)
             end
       end.
Proof.
  rewrite script_unfold.
  destruct (get_users_tweets w (LAST_SEEN_TWEET_ID w) 100) as [r|e].
  2:{ exists []. now split. }
  destruct (no_results r).
  { exists [Print "No new tweets found."]. now cbn. }
  rewrite archive_tweets_unfold, doc_update_year_cases.
  unfold last_run_year.
  destruct (LAST_RUN_DATE w) as [s|].
  2:{ exists []. now split. }
  destruct (strptime_mdY s) as [d|].
  2:{ exists []. now split. }
  cbn [option_map].
  destruct (year d <? now_year w)%Z.
  - unfold batchUpdate. cbn [gd_calls opened with_trace initial].
    destruct (docs_ok w 0).
    + destruct (data r) as [page|].
      * match goal with
        | |- context [for_each _ _ ?s] =>
            destruct (loop_events_of_shape w page s) as (body & Ht & Hb);
            destruct (for_each (archive_tweet w) (rev page) s)
              as [st' [[]|e]]
        end;
          cbn [fst trace environ dotenv opened with_trace initial] in *;
          exists ([BatchUpdate (year_header w) true] ++ body);
          (split; [rewrite Ht; now rewrite <- !app_assoc|]);
          exists body; (split; [reflexivity|]); right; now exists page.
      * exists [BatchUpdate (year_header w) true]. split; [reflexivity|].
        exists []. split; [reflexivity | now left].
    + exists [BatchUpdate (year_header w) false]. split; [reflexivity|].
      exists []. split; [reflexivity | now left].
  - destruct (data r) as [page|].
    + destruct (loop_events_of_shape w page (opened w)) as (body & Ht & Hb).
      destruct (for_each (archive_tweet w) (rev page) (opened w))
        as [st' [[]|e]];
        cbn [fst trace opened with_trace initial] in *;
        exists body; (split; [exact Ht|]);
        exists body; (split; [reflexivity|]); right; now exists page.
    + exists []. split; [reflexivity|].
      exists []. split; [reflexivity | now left].
Qed.

(** ** Observers on the events of a post *)

Lemma sent_app (a b : list Event) : sent (a ++ b) = sent a ++ sent b.
Proof.
  induction a as [|e a IH]; [reflexivity|].
  destruct e; cbn; rewrite IH; reflexivity.
Qed.

Lemma fetches_app (a b : list Event) :
  fetches (a ++ b) = fetches a ++ fetches b.
Proof.
  induction a as [|e a IH]; [reflexivity|].
  destruct e; cbn; rewrite IH; reflexivity.
Qed.

Lemma saves_app (a b : list Event) : saves (a ++ b) = saves a ++ saves b.
Proof.
  induction a as [|e a IH]; [reflexivity|].
  destruct e; cbn; try (rewrite IH; reflexivity).
  destruct (String.eqb key KEY); cbn; now rewrite IH.
Qed.

Lemma inserted_at_app (i : Z) (a b : list Event) :
  inserted_at i (a ++ b) = inserted_at i a ++ inserted_at i b.
Proof.
  induction a as [|e a IH]; [reflexivity|].
  destruct e as [| |rq ok| | |]; cbn; try exact IH.
  destruct rq; try exact IH. destruct ok; try exact IH.
  destruct (index =? i)%Z; cbn; now rewrite IH.
Qed.

Lemma sent_post_events (t : Tweet) (date setup punchline : string) :
  parsed t = Some (date, setup, punchline) ->
  sent (post_events t)
  = map (fun rq => (rq, true)) (requests date setup punchline).
Proof. intros H. unfold post_events. rewrite H. reflexivity. Qed.

Lemma post_events_unparsed (t : Tweet) :
  parsed t = None -> post_events t = [].
Proof. intros H. unfold post_events. now rewrite H. Qed.

Lemma broken_events_unparsed (t : Tweet) (n : nat) :
  parsed t = None -> broken_events t n = [].
Proof. intros H. unfold broken_events. now rewrite H. Qed.

Lemma sent_post_events_of (t : Tweet) :
  Forall (fun x => request_of t (fst x)) (sent (post_events t)).
Proof.
  destruct (parsed t) as [[[d s] p]|] eqn:H.
  - rewrite (sent_post_events t d s p H). cbn [map requests].
    repeat (apply Forall_cons;
            [exists d, s, p; split; [exact H | cbn; tauto]|]).
    apply Forall_nil.
  - rewrite post_events_unparsed by exact H. constructor.
Qed.

Lemma sent_broken_events_of (t : Tweet) (n : nat) :
  Forall (fun x => request_of t (fst x)) (sent (broken_events t n)).
Proof.
  destruct (parsed t) as [[[d s] p]|] eqn:H.
  - unfold broken_events. rewrite H.
    destruct n as [|[|[|[|n]]]]; cbn;
      repeat (apply Forall_cons;
              [exists d, s, p; split; [exact H | cbn; tauto]|]);
      apply Forall_nil.
  - rewrite broken_events_unparsed by exact H. constructor.
Qed.

Lemma fetches_post_events (t : Tweet) : fetches (post_events t) = [].
Proof.
  unfold post_events. now destruct (parsed t) as [[[d s] p]|].
Qed.

Lemma fetches_broken_events (t : Tweet) (n : nat) :
  fetches (broken_events t n) = [].
Proof.
  unfold broken_events. destruct (parsed t) as [[[d s] p]|]; [|reflexivity].
  destruct n as [|[|[|[|n]]]]; reflexivity.
Qed.

Lemma saves_broken_events (t : Tweet) (n : nat) :
  saves (broken_events t n) = [].
Proof.
  unfold broken_events. destruct (parsed t) as [[[d s] p]|]; [|reflexivity].
  destruct n as [|[|[|[|n]]]]; reflexivity.
Qed.

Lemma saves_post_events (t : Tweet) :
  parsed t <> None ->
  saves (post_events t) = [strip_quotes (strip_quotes (id t))].
Proof.
  unfold post_events. destruct (parsed t) as [[[d s] p]|]; [|contradiction].
  reflexivity.
Qed.

Lemma inserted_post_events (t : Tweet) :
  map Some (inserted_at 6 (post_events t))
  = match entry t with Some e => [Some e] | None => [] end.
Proof.
  unfold post_events, entry. now destruct (parsed t) as [[[d s] p]|].
Qed.

Lemma printed_app (a b : list Event) :
  printed (a ++ b) = printed a ++ printed b.
Proof.
  induction a as [|e a IH]; [reflexivity|].
  destruct e; cbn; now rewrite IH.
Qed.

(** The events of a post, however far it got, are its console lines, a
    first part of its three requests, and events that are neither
    requests nor fetches. *)
Lemma sent_post_events_skipped (t : Tweet) :
  sent (post_events_skipped t) = sent (post_events t).
Proof.
  unfold post_events_skipped, post_events.
  now destruct (parsed t) as [[[d s] p]|].
Qed.

Lemma sent_unsaved_events (t : Tweet) :
  sent (unsaved_events t) = sent (post_events t).
Proof.
  unfold unsaved_events, post_events.
  now destruct (parsed t) as [[[d s] p]|].
Qed.

Lemma sent_failed_save_events (t : Tweet) :
  sent (failed_save_events t) = sent (post_events t).
Proof.
  unfold failed_save_events, post_events.
  now destruct (parsed t) as [[[d s] p]|].
Qed.

Lemma sent_archived_events (d : Tweet * bool) :
  sent (archived_events d) = sent (post_events (fst d)).
Proof.
  destruct d as [t []]; [reflexivity | apply sent_post_events_skipped].
Qed.

Lemma fetches_archived_events (d : Tweet * bool) :
  fetches (archived_events d) = [].
Proof.
  destruct d as [t []]; cbn [archived_events fst snd].
  - apply fetches_post_events.
  - unfold post_events_skipped. now destruct (parsed t) as [[[d s] p]|].
Qed.

Lemma fetches_unsaved_events (t : Tweet) : fetches (unsaved_events t) = [].
Proof.
  unfold unsaved_events. now destruct (parsed t) as [[[d s] p]|].
Qed.

Lemma fetches_failed_save_events (t : Tweet) :
  fetches (failed_save_events t) = [].
Proof.
  unfold failed_save_events. now destruct (parsed t) as [[[d s] p]|].
Qed.

Lemma saves_unsaved_events (t : Tweet) : saves (unsaved_events t) = [].
Proof.
  unfold unsaved_events. now destruct (parsed t) as [[[d s] p]|].
Qed.

Lemma saves_failed_save_events (t : Tweet) :
  saves (failed_save_events t) = [].
Proof.
  unfold failed_save_events. now destruct (parsed t) as [[[d s] p]|].
Qed.

Lemma saves_post_events_skipped (t : Tweet) :
  saves (post_events_skipped t) = [].
Proof.
  unfold post_events_skipped. now destruct (parsed t) as [[[d s] p]|].
Qed.

(** Nothing is saved by the post at which the loop stopped. *)
Lemma saves_stopped (w : World) (p : Tweet) (partial : list Event) (e : Exn) :
  stopped_at w p partial e -> saves partial = [].
Proof.
  intros [(_ & _ & ->)
         | [(_ & _ & n & k & _ & _ & ->)
           | [(_ & _ & _ & ->) | (_ & _ & _ & ->)]]].
  - reflexivity.
  - apply saves_broken_events.
  - apply saves_unsaved_events.
  - apply saves_failed_save_events.
Qed.

(** The saves of the posts archived to the end are those that reached
    the [.env] file. *)
Lemma saves_archived (w : World) (done : list (Tweet * bool)) :
  Forall (archived w) done ->
  saves (flat_map archived_events done)
  = map (fun t => strip_quotes (strip_quotes (id t))) (written done).
Proof.
  unfold written.
  induction 1 as [|[t b] done (Hp & _) _ IH]; [reflexivity|].
  cbn [flat_map]. rewrite saves_app, IH. cbn [fst] in Hp.
  destruct b; cbn [archived_events filter snd fst map].
  - now rewrite saves_post_events by exact Hp.
  - now rewrite saves_post_events_skipped.
Qed.

(** The requests the loop sends are requests of matching posts of the
    page, and the loop fetches nothing. *)
Lemma loop_events_sent (page : list Tweet) (body : list Event) :
  loop_events page body ->
  Forall (fun x => exists t, In t page /\ matches t = true
                             /\ request_of t (fst x)) (sent body)
  /\ fetches body = [].
Proof.
  intros (done & rest & partial & Hf & -> & Hp).
  assert (Hin : forall t, In t (map fst done ++ rest) ->
                          In t page /\ matches t = true).
  { intros t Ht. rewrite <- Hf in Ht. apply filter_In in Ht.
    destruct Ht as [Ht Hm]. split; [now apply in_rev | exact Hm]. }
  rewrite sent_app, fetches_app. split.
  - apply Forall_app. split.
    + assert (Hd : forall t, In t (map fst done) ->
                             In t page /\ matches t = true)
        by (intros t Ht; apply Hin, in_or_app; now left).
      clear Hf Hin Hp. induction done as [|d done IH]; [constructor|].
      cbn [flat_map]. rewrite sent_app, sent_archived_events.
      apply Forall_app. split.
      * destruct (Hd (fst d) (or_introl eq_refl)) as [H1 H2].
        eapply Forall_impl; [|apply sent_post_events_of].
        intros x Hx. now exists (fst d).
      * apply IH. intros u Hu. apply Hd. now right.
    + destruct Hp as [-> | (p & Hp & Hk)]; [constructor|].
      destruct (Hin p (in_or_app _ _ _ (or_intror Hp))) as [H1 H2].
      assert (Hq : Forall (fun x => request_of p (fst x)) (sent partial)).
      { destruct Hk as [(n & ->) | [-> | ->]].
        - apply sent_broken_events_of.
        - rewrite sent_unsaved_events. apply sent_post_events_of.
        - rewrite sent_failed_save_events. apply sent_post_events_of. }
      eapply Forall_impl; [|exact Hq].
      intros x Hx. now exists p.
  - assert (Hd : fetches (flat_map archived_events done) = []).
    { clear. induction done as [|t done IH]; [reflexivity|].
      cbn [flat_map]. now rewrite fetches_app, fetches_archived_events, IH. }
    rewrite Hd. destruct Hp as [-> | (p & _ & [(n & ->) | [-> | ->]])].
    + reflexivity.
    + apply fetches_broken_events.
    + apply fetches_unsaved_events.
    + apply fetches_failed_save_events.
Qed.

(** ** The model of the source *)

Lemma olderb_older (a b : string) : olderb a b = true -> older a b.
Proof.
  unfold olderb, older.
  destruct (number a) as [x|]; [|discriminate].
  destruct (number b) as [y|]; [|discriminate].
  intros H. exists x, y. repeat split. now apply Z.ltb_lt.
Qed.

Lemma firstn_incl {A : Type} (n : nat) (l : list A) (x : A) :
  In x (firstn n l) -> In x l.
Proof.
  revert l. induction n as [|n IH]; intros [|a l] H; cbn in H;
    try contradiction.
  destruct H as [-> | H]; [now left | right; now apply IH].
Qed.

Lemma timeline_api_honours (timeline : list Tweet) (last_seen last_run : string)
    (yr : Z) (docs : nat -> bool) :
  since_id_honoured (world_of timeline last_seen last_run yr docs).
Proof.
  intros s n r page t Hr Hd Hin. cbn in Hr. unfold timeline_api in Hr.
  injection Hr as <-. cbn [data] in Hd.
  destruct (firstn (Z.to_nat n) (filter (fun t0 => olderb s (id t0)) timeline))
    as [|a l] eqn:Hp; [discriminate|].
  injection Hd as <-. rewrite <- Hp in Hin.
  apply firstn_incl, filter_In in Hin. now apply olderb_older.
Qed.

(** ** C2: nothing at or below the watermark is written again *)

(** C2. A run fetches once, asking for the posts above the stored
    watermark; every request it sends to the document is the year header
    or one of the three requests of a post the source returned, whose
    identifier is above the watermark when the source keeps its word on
    [since_id].  No request of the run comes from a post at or below the
    watermark. *)
Theorem no_reemit_below_watermark (w : World) (wm : string) :
  LAST_SEEN_TWEET_ID w = Some wm ->
  since_id_honoured w ->
  fetches (trace (fst (script w))) = [(Some wm, 100%Z)]
  /\ Forall (fun x =>
               fst x = year_header w
               \/ exists r page t,
                    get_users_tweets w (Some wm) 100 = inl r
                    /\ data r = Some page /\ In t page
                    /\ older wm (id t) /\ request_of t (fst x))
            (sent (trace (fst (script w)))).
Proof.
  intros Hwm Hs.
  destruct (script_trace w) as (tail & -> & Ht).
  rewrite fetches_app, sent_app. unfold opening. rewrite Hwm in *.
  cbn [fetches sent app].
  destruct (get_users_tweets w (Some wm) 100) as [r|e] eqn:Hf.
  2:{ subst tail. split; [reflexivity | constructor]. }
  destruct (no_results r).
  { subst tail. split; [reflexivity | constructor]. }
  destruct (last_run_year w) as [y|].
  2:{ subst tail. split; [reflexivity | constructor]. }
  destruct Ht as (body & -> & Hb).
  rewrite fetches_app, sent_app.
  assert (Hh : fetches (if (y <? now_year w)%Z
                        then [BatchUpdate (year_header w) (docs_ok w 0)]
                        else []) = [])
    by (destruct (y <? now_year w)%Z; reflexivity).
  rewrite Hh. cbn [app].
  assert (Hq : Forall (fun x => fst x = year_header w
               \/ exists r0 page t,
                    @inl Response Exn r = inl r0
                    /\ data r0 = Some page /\ In t page
                    /\ older wm (id t) /\ request_of t (fst x))
            (sent (if (y <? now_year w)%Z
                   then [BatchUpdate (year_header w) (docs_ok w 0)]
                   else []))).
  { destruct (y <? now_year w)%Z; cbn; repeat constructor. }
  destruct Hb as [-> | (page & Hd & Hl)].
  - split; [reflexivity|]. apply Forall_app. split; [exact Hq | constructor].
  - apply loop_events_sent in Hl. destruct Hl as [Hl1 Hl2].
    split; [now rewrite Hl2|].
    apply Forall_app. split; [exact Hq|].
    eapply Forall_impl; [|exact Hl1].
    intros x (t & Hin & _ & Hrq). right. exists r, page, t.
    repeat split; auto. exact (Hs wm 100%Z r page t Hf Hd Hin).
Qed.

Lemma no_reemit_below_watermark_witness :
  fetches (trace (fst (script world_four))) = [(Some "100", 100%Z)]
  /\ Forall (fun x =>
               fst x = year_header world_four
               \/ exists r page t,
                    get_users_tweets world_four (Some "100") 100 = inl r
                    /\ data r = Some page /\ In t page
                    /\ older "100" (id t) /\ request_of t (fst x))
            (sent (trace (fst (script world_four)))).
Proof.
  apply (no_reemit_below_watermark world_four "100").
  - reflexivity.
  - apply timeline_api_honours.
Defined.

(** ** What a clean run leaves *)

Lemma parsed_of_well_formed (t : Tweet) :
  well_formed t -> matches t = true -> parsed t <> None.
Proof.
  intros [_ Hd] Hm. specialize (Hd Hm).
  destruct (strptime_iso (created_at t)) as [d|] eqn:E; [|contradiction].
  destruct (parsed_of_date t d Hm E) as (a & b & c & ->). discriminate.
Qed.

Lemma matching_parsed (l : list Tweet) :
  Forall well_formed l ->
  Forall (fun t => parsed t <> None) (filter matches l).
Proof.
  intros H. rewrite Forall_forall in *. intros t Ht.
  apply filter_In in Ht. destruct Ht as [Hin Hm].
  now apply parsed_of_well_formed; [apply H|].
Qed.

Lemma inserted_posts (l : list Tweet) :
  Forall (fun t => parsed t <> None) l ->
  map Some (inserted_at 6 (flat_map post_events l)) = map entry l.
Proof.
  induction 1 as [|t l Ht _ IH]; [reflexivity|].
  cbn [flat_map map]. rewrite inserted_at_app, map_app, IH.
  rewrite inserted_post_events. unfold entry.
  destruct (parsed t) as [[[d s] p]|] eqn:E; [reflexivity | congruence].
Qed.

Lemma saves_posts (l : list Tweet) :
  Forall (fun t => parsed t <> None) l ->
  saves (flat_map post_events l)
  = map (fun t => strip_quotes (strip_quotes (id t))) l.
Proof.
  induction 1 as [|t l Ht _ IH]; [reflexivity|].
  cbn [flat_map map]. rewrite saves_app, IH, saves_post_events by exact Ht.
  reflexivity.
Qed.

Lemma inserted_header (w : World) : inserted_at 6 (header_events w) = [].
Proof.
  unfold header_events. destruct (last_run_year w) as [y|]; [|reflexivity].
  destruct (y <? now_year w)%Z; reflexivity.
Qed.

Lemma saves_header (w : World) : saves (header_events w) = [].
Proof.
  unfold header_events. destruct (last_run_year w) as [y|]; [|reflexivity].
  destruct (y <? now_year w)%Z; reflexivity.
Qed.

Lemma strip_ids (l : list Tweet) :
  Forall well_formed l ->
  map (fun t => strip_quotes (strip_quotes (id t))) l = map id l.
Proof.
  induction 1 as [|t l [Hn _] _ IH]; [reflexivity|].
  cbn [map]. now rewrite IH, !(strip_numeric (id t) Hn).
Qed.

Lemma rev_filter_rev (page : list Tweet) :
  rev (filter matches (rev page)) = filter matches page.
Proof. now rewrite filter_rev, rev_involutive. Qed.

(** After a clean run the watermark is the identifier of the newest
    matching post of the page, and is what it was when no post matches. *)
Lemma watermark_clean (w : World) (page : list Tweet) :
  clean_run w page ->
  watermark (fst (script w))
  = match find matches page with
    | Some m => Some (id m)
    | None => watermark (initial w)
    end.
Proof.
  intros Hc. destruct (clean_run_shape w page Hc) as (_ & _ & _ & Hv).
  unfold watermark. rewrite Hv, dotenv_after_last, rev_filter_rev, find_filter.
  destruct (filter matches page) as [|m l] eqn:Hm; [reflexivity|].
  cbn [hd_error].
  assert (Hin : In m page).
  { assert (H : In m (filter matches page)) by (rewrite Hm; now left).
    now apply filter_In in H. }
  destruct Hc as [_ _ _ Hwf _]. rewrite Forall_forall in Hwf.
  destruct (Hwf m Hin) as [Hn _]. now rewrite !(strip_numeric _ Hn).
Qed.

Lemma world_four_clean :
  clean_run world_four [post_104; post_103; post_102; post_101].
Proof.
  constructor.
  - eexists. split; [reflexivity|]. split; reflexivity.
  - discriminate.
  - intros n. reflexivity.
  - repeat constructor; intros _; discriminate.
  - intros n. reflexivity.
Qed.

(** ** C3: oldest first, watermark at the newest *)

(** C3, as stated, fails on the code in its last part: on a page with
    two matching posts whose newest post does not match, the watermark
    ends at the newest matching post, not at the newest post. *)
Lemma watermark_newest_post_counterexample :
  clean_run world_four [post_104; post_103; post_102; post_101]
  /\ filter matches [post_104; post_103; post_102; post_101]
     = [post_103; post_101]
  /\ watermark (fst (script world_four)) = Some "103"
  /\ watermark (fst (script world_four)) <> Some (id post_104).
Proof.
  split; [exact world_four_clean|].
  split; [vm_compute; reflexivity|].
  split; [vm_compute; reflexivity | vm_compute; discriminate].
Qed.

(** C3, amended: in a run in which nothing goes wrong, on a page returned
    newest first, the entries inserted in the document are those of the
    matching posts taken oldest first, one entry for each; the watermark
    ends at the identifier of the newest of the matching posts, which is
    the newest post of the page when that one matches. *)
Theorem archived_oldest_first (w : World) (page : list Tweet)
    (newest : Tweet) :
  clean_run w page ->
  find matches page = Some newest ->
  map Some (inserted_at 6 (trace (fst (script w))))
  = map entry (rev (filter matches page))
  /\ watermark (fst (script w)) = Some (id newest)
  /\ (forall t rest, page = t :: rest -> matches t = true ->
      watermark (fst (script w)) = Some (id t)).
Proof.
  intros Hc Hn.
  pose proof (watermark_clean w page Hc) as Hw. rewrite Hn in Hw.
  destruct (clean_run_shape w page Hc) as (_ & Ht & _ & _).
  split; [|split].
  - rewrite Ht, !inserted_at_app, inserted_header. cbn [inserted_at opening app].
    rewrite filter_rev. apply inserted_posts.
    rewrite <- filter_rev. apply matching_parsed.
    destruct Hc as [_ _ _ Hwf _]. rewrite Forall_forall in *.
    intros t Hin. apply Hwf. now apply in_rev.
  - exact Hw.
  - intros t rest -> Hm. rewrite Hw. cbn [find] in Hn. rewrite Hm in Hn.
    now injection Hn as <-.
Qed.

Lemma archived_oldest_first_witness :
  map Some (inserted_at 6 (trace (fst (script world_four))))
  = map entry (rev (filter matches [post_104; post_103; post_102; post_101]))
  /\ watermark (fst (script world_four)) = Some (id post_103)
  /\ (forall t rest, [post_104; post_103; post_102; post_101] = t :: rest ->
      matches t = true ->
      watermark (fst (script world_four)) = Some (id t)).
Proof.
  apply (archived_oldest_first world_four
           [post_104; post_103; post_102; post_101] post_103).
  - exact world_four_clean.
  - reflexivity.
Defined.

(** ** The shape of a run that reaches the loop *)

Lemma archived_events_parsed (d : Tweet * bool)
    (date setup punchline : string) :
  parsed (fst d) = Some (date, setup, punchline) ->
  archived_events d
  = log_lines (id (fst d)) date setup punchline
    ++ write_events date setup punchline
    ++ [Print "Tweet exported to doc."]
    ++ (if snd d then save_events (id (fst d))
        else skipped_save_events (id (fst d))).
Proof.
  destruct d as [t []]; cbn [archived_events fst snd]; intros H.
  - unfold post_events. now rewrite H.
  - unfold post_events_skipped. now rewrite H.
Qed.

Lemma header_events_some (w : World) (y : Z) :
  last_run_year w = Some y ->
  header_events w
  = if (y <? now_year w)%Z then [BatchUpdate (year_header w) true] else [].
Proof. intros H. unfold header_events. now rewrite H. Qed.

(** A run whose fetch is answered with posts, whose stored date parses
    and whose year header, if due, is accepted: the trace is the opening,
    the header, and what the loop leaves; the result of the run is that
    of the loop. *)
Lemma script_shape (w : World) (r : Response) (page : list Tweet) (y : Z) :
  get_users_tweets w (LAST_SEEN_TWEET_ID w) 100 = inl r ->
  no_results r = false ->
  data r = Some page ->
  last_run_year w = Some y ->
  ((y <? now_year w)%Z = true -> docs_ok w 0 = true) ->
  exists done rest partial,
    filter matches (rev page) = map fst done ++ rest
    /\ Forall (archived w) done
    /\ trace (fst (script w))
       = opening w ++ header_events w
         ++ flat_map archived_events done ++ partial
    /\ dotenv (fst (script w)) = dotenv_after (written done) (dotenv0 w)
    /\ match snd (script w) with
       | inl v =>
           v = None /\ rest = [] /\ partial = []
           /\ environ (fst (script w))
              = environ_after (map fst done) (environ0 w)
       | inr e =>
           exists p rest',
             rest = p :: rest' /\ stopped_at w p partial e
             /\ environ (fst (script w))
                = environ_after (map fst done ++ set_not_written e p)
                    (environ0 w)
       end.
Proof.
  intros Hf Hn Hd Hy Hok.
  rewrite (header_events_some w y Hy).
  rewrite script_unfold, Hf, Hn, archive_tweets_unfold,
    doc_update_year_cases, Hd.
  unfold last_run_year in Hy.
  destruct (LAST_RUN_DATE w) as [s|]; [|discriminate].
  destruct (strptime_mdY s) as [d|]; [|discriminate].
  cbn [option_map] in Hy. injection Hy as ->.
  destruct (y <? now_year w)%Z.
  - unfold batchUpdate. cbn [gd_calls opened with_trace initial].
    rewrite (Hok eq_refl).
    match goal with
    | |- context [for_each _ _ ?s] =>
        destruct (loop_shape w (rev page) s)
          as (done & rest & partial & H1 & H2 & H3 & H4 & H5);
        destruct (for_each (archive_tweet w) (rev page) s) as [st' [[]|e]]
    end;
      cbn [fst snd trace environ dotenv dotenv_calls] in *;
      exists done, rest, partial; rewrite H3, H4;
      (split; [exact H1|]); (split; [exact H2|]);
      (split; [now rewrite <- !app_assoc|]); (split; [reflexivity|]).
    + destruct H5 as (-> & -> & H5). auto.
    + exact H5.
  - destruct (loop_shape w (rev page) (opened w))
      as (done & rest & partial & H1 & H2 & H3 & H4 & H5).
    destruct (for_each (archive_tweet w) (rev page) (opened w))
      as [st' [[]|e]];
      cbn [fst snd trace environ dotenv opened with_trace initial] in *;
      exists done, rest, partial; rewrite H3, H4;
      (split; [exact H1|]); (split; [exact H2|]);
      (split; [reflexivity|]); (split; [reflexivity|]).
    + destruct H5 as (-> & -> & H5). auto.
    + exact H5.
Qed.

(** ** C4: each save follows its own writes *)

(** C4. In every run that reaches the loop of [archive_tweets] (the
    source answered with posts, the stored date parsed, the year header,
    if due, was accepted), whatever the document service and the [.env]
    file answer afterwards: the trace of the run is the opening, the
    header, then the events of the matching posts archived to the end,
    oldest first, and for each of them, in this order: its console lines,
    its three accepted writes, the line reporting them, and its own
    watermark save; then what the post the run stopped at left, in which
    nothing is saved.  The values saved in the [.env] file are those of
    the posts archived to the end, all of them when the file is written
    each time, so the watermark is at the last of them (or where it was);
    the run returns only when no matching post is left, and the posts
    after the one it stopped at leave nothing. *)
Theorem save_follows_own_write (w : World) (r : Response)
    (page : list Tweet) (y : Z) :
  get_users_tweets w (LAST_SEEN_TWEET_ID w) 100 = inl r ->
  no_results r = false ->
  data r = Some page ->
  last_run_year w = Some y ->
  ((y <? now_year w)%Z = true -> docs_ok w 0 = true) ->
  exists done rest partial,
    filter matches (rev page) = map fst done ++ rest
    /\ trace (fst (script w))
       = opening w ++ header_events w
         ++ flat_map archived_events done ++ partial
    /\ Forall (fun d => exists date setup punchline,
                 parsed (fst d) = Some (date, setup, punchline)
                 /\ archived_events d
                    = log_lines (id (fst d)) date setup punchline
                      ++ write_events date setup punchline
                      ++ [Print "Tweet exported to doc."]
                      ++ (if snd d then save_events (id (fst d))
                          else skipped_save_events (id (fst d)))) done
    /\ (env_file_up w -> Forall (fun d => snd d = true) done)
    /\ saves (trace (fst (script w)))
       = map (fun t => strip_quotes (strip_quotes (id t))) (written done)
    /\ watermark (fst (script w))
       = match rev (written done) with
         | t :: _ => Some (strip_quotes (strip_quotes (id t)))
         | [] => watermark (initial w)
         end
    /\ match snd (script w) with
       | inl _ => rest = [] /\ partial = []
       | inr e =>
           exists p rest',
             rest = p :: rest' /\ stopped_at w p partial e
             /\ saves partial = []
       end.
Proof.
  intros Hf Hn Hd Hy Hok.
  destruct (script_shape w r page y Hf Hn Hd Hy Hok)
    as (done & rest & partial & H1 & H2 & H3 & H4 & H5).
  assert (Hp : saves partial = []).
  { destruct (snd (script w)) as [v|e].
    - destruct H5 as (_ & _ & -> & _). reflexivity.
    - destruct H5 as (p & rest' & _ & Hs & _).
      exact (saves_stopped w p partial e Hs). }
  exists done, rest, partial. split; [exact H1|]. split; [exact H3|].
  split; [|split; [|split; [|split]]].
  - eapply Forall_impl; [|exact H2]. intros d (Hpd & _).
    destruct (parsed (fst d)) as [[[dt su] pu]|] eqn:E; [|congruence].
    exists dt, su, pu. split; [reflexivity|].
    now apply archived_events_parsed.
  - intros Hup. exact (archived_written w done Hup H2).
  - rewrite H3, !saves_app, saves_header, (saves_archived w done H2), Hp.
    cbn [opening saves app]. now rewrite app_nil_r.
  - unfold watermark. rewrite H4. apply dotenv_after_last.
  - destruct (snd (script w)) as [v|e].
    + destruct H5 as (_ & -> & -> & _). now split.
    + destruct H5 as (p & rest' & -> & Hs & _). now exists p, rest'.
Qed.

Lemma save_follows_own_write_witness :
  exists done rest partial,
    filter matches (rev [post_103; post_102; post_101])
    = map fst done ++ rest
    /\ trace (fst (script world_write_refused))
       = opening world_write_refused ++ header_events world_write_refused
         ++ flat_map archived_events done ++ partial
    /\ Forall (fun d => exists date setup punchline,
                 parsed (fst d) = Some (date, setup, punchline)
                 /\ archived_events d
                    = log_lines (id (fst d)) date setup punchline
                      ++ write_events date setup punchline
                      ++ [Print "Tweet exported to doc."]
                      ++ (if snd d then save_events (id (fst d))
                          else skipped_save_events (id (fst d)))) done
    /\ (env_file_up world_write_refused ->
        Forall (fun d => snd d = true) done)
    /\ saves (trace (fst (script world_write_refused)))
       = map (fun t => strip_quotes (strip_quotes (id t))) (written done)
    /\ watermark (fst (script world_write_refused))
       = match rev (written done) with
         | t :: _ => Some (strip_quotes (strip_quotes (id t)))
         | [] => watermark (initial world_write_refused)
         end
    /\ match snd (script world_write_refused) with
       | inl _ => rest = [] /\ partial = []
       | inr e =>
           exists p rest',
             rest = p :: rest' /\ stopped_at world_write_refused p partial e
             /\ saves partial = []
       end.
Proof.
  apply (save_follows_own_write world_write_refused
           {| meta := Some 3%Z; data := Some [post_103; post_102; post_101] |}
           [post_103; post_102; post_101] 2023%Z);
    reflexivity.
Defined.

(** The run of [world_write_refused], event by event: the older post is
    archived and saved, the second write of the newer one is refused, and
    the run ends there with the watermark at the older post. *)
Example write_refused_run :
  trace (fst (script world_write_refused))
  = opening world_write_refused
    ++ [BatchUpdate (year_header world_write_refused) true]
    ++ post_events post_101
    ++ broken_events post_103 1
  /\ post_events post_101
     = log_lines "101" "01/02/2024" "Why did X" "Because Y"
       ++ write_events "01/02/2024" "Why did X" "Because Y"
       ++ [Print "Tweet exported to doc."]
       ++ save_events "101"
  /\ sent (broken_events post_103 1)
     = [ (InsertText 6
            (format_tweet "01/04/2024" "Knock knock" "Who is there"), true);
         (UpdateParagraphStyle 6 42, false) ]
  /\ saves (trace (fst (script world_write_refused))) = ["101"]
  /\ watermark (fst (script world_write_refused)) = Some "101"
  /\ snd (script world_write_refused) = inr HttpError.
Proof. vm_compute. repeat split. Qed.

(** The same page with a [.env] file that cannot be written at the
    first save: the entry of the older post is in the document, its
    identifier is in the environment and not in the file, and the run
    ends there. *)
Example env_file_failed_run :
  trace (fst (script (with_env_file world_three 0 Failed)))
  = opening world_three ++ failed_save_events post_101
  /\ saves (trace (fst (script (with_env_file world_three 0 Failed)))) = []
  /\ watermark (fst (script (with_env_file world_three 0 Failed)))
     = Some "100"
  /\ env_get KEY (environ (fst (script (with_env_file world_three 0 Failed))))
     = Some "101"
  /\ snd (script (with_env_file world_three 0 Failed)) = inr OSError.
Proof. vm_compute. repeat split. Qed.

(** ** C5: the year header *)

Lemma request_of_not_header (t : Tweet) (rq : Request) (txt : string) :
  request_of t rq -> rq <> InsertText 1 txt.
Proof.
  intros (d & s & p & _ & Hin) ->. cbn in Hin.
  destruct Hin as [H | [H | [H | []]]]; discriminate.
Qed.

(** C5, as stated for every run, fails on the code: when the source
    reports no new post, [main] returns before [archive_tweets] is called,
    and no header is inserted although the stored date of the last run is
    in the year before. *)
Lemma year_header_every_run_counterexample :
  last_run_year world_quiet = Some 2023%Z
  /\ now_year world_quiet = 2024%Z
  /\ sent (trace (fst (script world_quiet))) = [].
Proof. repeat split. Qed.

(** C5, amended: in every run that reaches [archive_tweets] (the source
    answered and did not report zero results) with a stored date of the
    last run that parses, if the current year is above the year of that
    date the first request sent to the document is the insertion of the
    year and a newline at position 1, and no other request of the run
    inserts at position 1; otherwise no request of the run inserts at
    position 1.  All the other requests are requests of posts. *)
Theorem year_header_first (w : World) (r : Response) (y : Z) :
  get_users_tweets w (LAST_SEEN_TWEET_ID w) 100 = inl r ->
  no_results r = false ->
  last_run_year w = Some y ->
  exists rest,
    map fst (sent (trace (fst (script w))))
    = (if (y <? now_year w)%Z then [InsertText 1 (str_int (now_year w) +++ nl)]
       else []) ++ rest
    /\ Forall (fun rq => exists t, request_of t rq) rest
    /\ Forall (fun rq => forall txt, rq <> InsertText 1 txt) rest.
Proof.
  intros Hf Hn Hy.
  destruct (script_trace w) as (tail & -> & Ht).
  rewrite Hf, Hn, Hy in Ht. destruct Ht as (body & -> & Hb).
  rewrite !sent_app, !map_app. cbn [opening sent map app].
  assert (Hq : Forall (fun rq => exists t, request_of t rq)
                 (map fst (sent body))).
  { destruct Hb as [-> | (page & _ & Hl)]; [constructor|].
    apply loop_events_sent in Hl. destruct Hl as [Hl _].
    apply Forall_map. eapply Forall_impl; [|exact Hl].
    intros x (t & _ & _ & Hx). now exists t. }
  exists (map fst (sent body)). split; [|split].
  - destruct (y <? now_year w)%Z; reflexivity.
  - exact Hq.
  - eapply Forall_impl; [|exact Hq].
    intros rq (t & Hrq) txt. now apply (request_of_not_header t).
Qed.

Lemma year_header_first_witness :
  exists rest,
    map fst (sent (trace (fst (script world_new_year))))
    = (if (2023 <? now_year world_new_year)%Z
       then [InsertText 1 (str_int (now_year world_new_year) +++ nl)]
       else []) ++ rest
    /\ Forall (fun rq => exists t, request_of t rq) rest
    /\ Forall (fun rq => forall txt, rq <> InsertText 1 txt) rest.
Proof.
  apply (year_header_first world_new_year
           {| meta := Some 1%Z; data := Some [post_101] |} 2023%Z);
    reflexivity.
Defined.

Example year_header_new_year :
  sent (trace (fst (script world_new_year)))
  = [ (InsertText 1 ("2024" +++ nl), true);
      (InsertText 6 (format_tweet "01/02/2024" "Why did X" "Because Y"), true);
      (UpdateParagraphStyle 6 37, true);
      (UpdateTextStyle 28 37, true) ].
Proof. reflexivity. Qed.

Example year_header_same_year :
  sent (trace (fst (script world_same_year)))
  = [ (InsertText 6 (format_tweet "01/02/2024" "Why did X" "Because Y"), true);
      (UpdateParagraphStyle 6 37, true);
      (UpdateTextStyle 28 37, true) ].
Proof. reflexivity. Qed.

(** ** C6: nothing new *)

(** C6. When the source reports a result count of zero, the run sends no
    request to the document, saves no watermark and leaves both stores as
    they were; it prints the stored watermark and then the line saying
    that no new tweets were found, [main] returns [None], and the status
    of the process is zero. *)
Theorem zero_results_noop (w : World) (r : Response) :
  get_users_tweets w (LAST_SEEN_TWEET_ID w) 100 = inl r ->
  meta r = Some 0%Z ->
  sent (trace (fst (script w))) = []
  /\ saves (trace (fst (script w))) = []
  /\ environ (fst (script w)) = environ0 w
  /\ dotenv (fst (script w)) = dotenv0 w
  /\ printed (trace (fst (script w)))
     = [ "Last seen tweet ID: " +++ fmt_opt (LAST_SEEN_TWEET_ID w);
         "No new tweets found." ]
  /\ snd (script w) = inl None
  /\ exit_status (snd (script w)) = 0%Z.
Proof.
  intros Hf Hm. rewrite script_unfold, Hf.
  unfold no_results. rewrite Hm. cbn. repeat split.
Qed.

Lemma zero_results_noop_witness :
  sent (trace (fst (script world_quiet))) = []
  /\ saves (trace (fst (script world_quiet))) = []
  /\ environ (fst (script world_quiet)) = environ0 world_quiet
  /\ dotenv (fst (script world_quiet)) = dotenv0 world_quiet
  /\ printed (trace (fst (script world_quiet)))
     = [ "Last seen tweet ID: " +++ fmt_opt (LAST_SEEN_TWEET_ID world_quiet);
         "No new tweets found." ]
  /\ snd (script world_quiet) = inl None
  /\ exit_status (snd (script world_quiet)) = 0%Z.
Proof.
  apply (zero_results_noop world_quiet {| meta := Some 0%Z; data := None |});
    reflexivity.
Defined.

(** ** C7: the offsets of the example *)

Lemma parsed_matches (t : Tweet) : parsed t <> None -> matches t = true.
Proof.
  unfold parsed, matches, is_pun.
  destruct (pun_match (text t)) as [[s p]|]; [reflexivity | congruence].
Qed.

Lemma sent_posts (l : list Tweet) :
  sent (flat_map post_events l) = flat_map (fun u => sent (post_events u)) l.
Proof.
  induction l as [|u l IH]; [reflexivity|].
  cbn [flat_map]. now rewrite sent_app, IH.
Qed.

(** In a run in which nothing goes wrong, the three requests of a post
    of the page that parses are sent, one after the other, between the
    requests of the older matching posts and those of the newer ones. *)
Lemma clean_run_sends (w : World) (page : list Tweet) (t : Tweet)
    (date setup punchline : string) :
  clean_run w page -> In t page ->
  parsed t = Some (date, setup, punchline) ->
  exists before after,
    filter matches (rev page) = before ++ t :: after
    /\ sent (trace (fst (script w)))
       = (sent (header_events w)
          ++ flat_map (fun u => sent (post_events u)) before)
         ++ map (fun rq => (rq, true)) (requests date setup punchline)
         ++ flat_map (fun u => sent (post_events u)) after.
Proof.
  intros Hc Hin Hp.
  destruct (clean_run_shape w page Hc) as (_ & Ht & _ & _).
  assert (Hm : In t (filter matches (rev page))).
  { apply filter_In. split; [now apply in_rev in Hin|].
    apply parsed_matches. congruence. }
  apply in_split in Hm. destruct Hm as (before & after & Hm).
  exists before, after. split; [exact Hm|].
  rewrite Ht, Hm, !sent_app, sent_posts, flat_map_app. cbn [flat_map].
  rewrite (sent_post_events t _ _ _ Hp), <- !app_assoc. reflexivity.
Qed.

Lemma world_new_year_clean : clean_run world_new_year [post_101].
Proof.
  constructor.
  - eexists. split; [reflexivity|]. split; reflexivity.
  - discriminate.
  - intros n. reflexivity.
  - repeat constructor; intros _; discriminate.
  - intros n. reflexivity.
Qed.

(** C7. In a run in which nothing goes wrong, for a post of the page
    whose date is 01/02/2024, whose setup is "Why did X" and whose
    punchline is "Because Y", the run sends to the document, one after
    the other, the insertion of the entry at position 6, the paragraph
    style over the range from 6 to 37 and the italics over the range from
    28 to 37, all three accepted; 37 is 10 + 9 + 9 + 9 and 28 is
    10 + 9 + 9, the lengths of the date, of the setup and of the
    punchline, and the constant 9. *)
Theorem offsets_example (w : World) (page : list Tweet) (t : Tweet) :
  clean_run w page -> In t page ->
  parsed t = Some ("01/02/2024", "Why did X", "Because Y") ->
  (exists before after,
     sent (trace (fst (script w)))
     = before
       ++ [ (InsertText 6
               (format_tweet "01/02/2024" "Why did X" "Because Y"), true);
            (UpdateParagraphStyle 6 37, true);
            (UpdateTextStyle 28 37, true) ]
       ++ after)
  /\ len "01/02/2024" = 10%Z /\ len "Why did X" = 9%Z
  /\ len "Because Y" = 9%Z /\ ITALICS_OFFSET = 9%Z
  /\ (len ("01/02/2024" +++ "Why did X" +++ "Because Y") + ITALICS_OFFSET
      = 10 + 9 + 9 + 9)%Z
  /\ (len ("01/02/2024" +++ "Why did X") + ITALICS_OFFSET = 10 + 9 + 9)%Z.
Proof.
  intros Hc Hin Hp. split; [|repeat split].
  destruct (clean_run_sends w page t _ _ _ Hc Hin Hp)
    as (before & after & _ & Hs).
  eexists. eexists. rewrite Hs. reflexivity.
Qed.

Lemma offsets_example_witness :
  (exists before after,
     sent (trace (fst (script world_new_year)))
     = before
       ++ [ (InsertText 6
               (format_tweet "01/02/2024" "Why did X" "Because Y"), true);
            (UpdateParagraphStyle 6 37, true);
            (UpdateTextStyle 28 37, true) ]
       ++ after)
  /\ len "01/02/2024" = 10%Z /\ len "Why did X" = 9%Z
  /\ len "Because Y" = 9%Z /\ ITALICS_OFFSET = 9%Z
  /\ (len ("01/02/2024" +++ "Why did X" +++ "Because Y") + ITALICS_OFFSET
      = 10 + 9 + 9 + 9)%Z
  /\ (len ("01/02/2024" +++ "Why did X") + ITALICS_OFFSET = 10 + 9 + 9)%Z.
Proof.
  apply (offsets_example world_new_year [post_101] post_101).
  - exact world_new_year_clean.
  - now left.
  - reflexivity.
Defined.

(** ** C8: the entry and its punchline *)

Lemma lines_single (l : string) :
  single_line l = true -> lines l = [l].
Proof.
  unfold lines. induction l as [|a l IH]; [reflexivity|].
  cbn [single_line split_at]. unfold is_char at 1.
  destruct (Ascii.eqb a LF); cbn [negb andb]; [discriminate|].
  intros H. now rewrite (IH H).
Qed.

Lemma lines_app (l r : string) :
  single_line l = true -> lines (l +++ String LF r) = l :: lines r.
Proof.
  unfold lines. induction l as [|a l IH]; [reflexivity|].
  cbn [single_line String.append split_at]. unfold is_char at 1.
  destruct (Ascii.eqb a LF); cbn [negb andb]; [discriminate|].
  intros H. now rewrite (IH H).
Qed.

Lemma punchline_region_format (date setup punchline : string) :
  single_line date = true -> single_line setup = true ->
  single_line punchline = true ->
  punchline_region (format_tweet date setup punchline) = Some punchline.
Proof.
  intros Hd Hs Hp. unfold punchline_region, format_tweet.
  change (date +++ nl +++ setup +++ nl +++ tab +++ punchline +++ nl +++ nl)
    with (date +++ String LF
            (setup +++ String LF
               (String TAB punchline +++ String LF nl))).
  assert (Ht : single_line (String TAB punchline) = true) by exact Hp.
  rewrite (lines_app date _ Hd), (lines_app setup _ Hs), (lines_app _ _ Ht).
  reflexivity.
Qed.

(** C8, as stated for every setup, fails: with a setup of two lines the
    third line of the entry is the second line of the setup, not the
    punchline. *)
Lemma round_trip_counterexample :
  punchline_region (format_tweet "01/02/2024" two_lines "c") = None
  /\ punchline_region (format_tweet "01/02/2024" two_lines "c") <> Some "c".
Proof. split; [reflexivity | discriminate]. Qed.

(** C8, amended: [format_tweet] returns the date, a newline, the setup,
    a newline, a tab, the punchline and two newlines; when the date, the
    setup and the punchline have no newline in them, the third line of
    the entry without its leading tab is the punchline; this is so for
    the setup and the punchline of every text the pattern matches. *)
Theorem format_tweet_round_trip (date setup punchline : string) :
  format_tweet date setup punchline
  = date +++ nl +++ setup +++ nl +++ tab +++ punchline +++ nl +++ nl
  /\ (single_line date = true -> single_line setup = true ->
      single_line punchline = true ->
      punchline_region (format_tweet date setup punchline) = Some punchline)
  /\ (forall txt, pun_match txt = Some (setup, punchline) ->
      single_line date = true ->
      punchline_region (format_tweet date setup punchline) = Some punchline).
Proof.
  split; [reflexivity|]. split.
  - apply punchline_region_format.
  - intros txt Hm Hd. rewrite pun_match_split in Hm.
    apply pun_split_sound in Hm. destruct Hm as (_ & _ & Hs & Hp & _).
    now apply punchline_region_format.
Qed.

Lemma format_tweet_round_trip_witness :
  format_tweet "01/02/2024" "Why did X" "Because Y"
  = "01/02/2024" +++ nl +++ "Why did X" +++ nl +++ tab +++ "Because Y"
    +++ nl +++ nl
  /\ punchline_region (format_tweet "01/02/2024" "Why did X" "Because Y")
     = Some "Because Y".
Proof.
  destruct (format_tweet_round_trip "01/02/2024" "Why did X" "Because Y")
    as (H1 & H2 & _).
  split; [exact H1 | apply H2; reflexivity].
Defined.

(** ** C9: the status of the process *)

Lemma sent_post_events_accepted (t : Tweet) :
  Forall (fun x => snd x = true) (sent (post_events t)).
Proof.
  destruct (parsed t) as [[[d s] p]|] eqn:H.
  - rewrite (sent_post_events t d s p H). cbn [map requests].
    repeat constructor.
  - rewrite post_events_unparsed by exact H. constructor.
Qed.

Lemma sent_archived_accepted (done : list (Tweet * bool)) :
  Forall (fun x => snd x = true) (sent (flat_map archived_events done)).
Proof.
  induction done as [|d done IH]; [constructor|].
  cbn [flat_map]. rewrite sent_app, sent_archived_events.
  apply Forall_app. split; [apply sent_post_events_accepted | exact IH].
Qed.

(** A request refused inside the loop ends the loop with [HttpError]. *)
Lemma loop_refused (w : World) (l : list Tweet) (st : State) (rq : Request) :
  In (rq, false) (sent (trace (fst (for_each (archive_tweet w) l st)))) ->
  Forall (fun x => snd x = true) (sent (trace st)) ->
  snd (for_each (archive_tweet w) l st) = inr HttpError.
Proof.
  intros Hin Hst.
  destruct (loop_shape w l st)
    as (done & rest & partial & _ & _ & Ht & _ & Hr).
  rewrite Ht, !sent_app in Hin.
  assert (Hno : forall tr, Forall (fun x => snd x = true) tr ->
                           ~ In (rq, false) tr).
  { intros tr Hall Hx. rewrite Forall_forall in Hall.
    specialize (Hall _ Hx). discriminate. }
  apply in_app_or in Hin. destruct Hin as [Hin | Hin];
    [now apply Hno in Hin|].
  apply in_app_or in Hin. destruct Hin as [Hin | Hin];
    [now apply (Hno _ (sent_archived_accepted done)) in Hin|].
  destruct (snd (for_each (archive_tweet w) l st)) as [[]|e].
  - destruct Hr as (_ & -> & _). contradiction.
  - destruct Hr as (p & rest' & _ & Hs & _).
    destruct Hs as [(_ & _ & ->)
                   | [(-> & _)
                     | [(_ & _ & _ & ->) | (_ & _ & _ & ->)]]].
    + contradiction.
    + reflexivity.
    + rewrite sent_unsaved_events in Hin.
      now apply (Hno _ (sent_post_events_accepted p)) in Hin.
    + rewrite sent_failed_save_events in Hin.
      now apply (Hno _ (sent_post_events_accepted p)) in Hin.
Qed.

(** A request refused anywhere in a run ends the run with [HttpError]. *)
Lemma refused_stops (w : World) (rq : Request) :
  In (rq, false) (sent (trace (fst (script w)))) ->
  snd (script w) = inr HttpError.
Proof.
  rewrite script_unfold.
  destruct (get_users_tweets w (LAST_SEEN_TWEET_ID w) 100) as [r|e];
    [|intros []].
  destruct (no_results r); [intros []|].
  rewrite archive_tweets_unfold, doc_update_year_cases.
  destruct (LAST_RUN_DATE w) as [s|]; [|intros []].
  destruct (strptime_mdY s) as [d|]; [|intros []].
  destruct (year d <? now_year w)%Z.
  - unfold batchUpdate. cbn [gd_calls opened with_trace initial].
    destruct (docs_ok w 0); [|reflexivity].
    destruct (data r) as [page|]; [|intros [H | []]; discriminate].
    match goal with
    | |- context [for_each _ _ ?s] =>
        pose proof (loop_refused w (rev page) s rq) as Hl;
        destruct (for_each (archive_tweet w) (rev page) s) as [st' [[]|e]]
    end; cbn [fst snd trace] in *; intros Hin.
    + assert (H : @inl unit Exn tt = inr HttpError)
        by (apply Hl; [exact Hin | repeat constructor]).
      discriminate.
    + assert (H : @inr unit Exn e = inr HttpError)
        by (apply Hl; [exact Hin | repeat constructor]).
      injection H as ->. reflexivity.
  - destruct (data r) as [page|]; [|intros []].
    pose proof (loop_refused w (rev page) (opened w) rq) as Hl.
    destruct (for_each (archive_tweet w) (rev page) (opened w))
      as [st' [[]|e]]; cbn [fst snd trace] in *; intros Hin.
    + assert (H : @inl unit Exn tt = inr HttpError)
        by (apply Hl; [exact Hin | repeat constructor]).
      discriminate.
    + assert (H : @inr unit Exn e = inr HttpError)
        by (apply Hl; [exact Hin | repeat constructor]).
      injection H as ->. reflexivity.
Qed.

(** C9, as stated, fails on the code: the authentication step returns a
    client, the document service refuses a write, the exception leaves
    [main], and the status of the process is not zero. *)
Lemma exit_status_counterexample :
  twt_auth_passed = Some TweepyClient
  /\ snd (script world_docs_down) = inr HttpError
  /\ exit_status (snd (script world_docs_down)) = 1%Z.
Proof. repeat split. Qed.

(** C9, amended: the status of the process is zero when the run comes to
    its end, be it that the source reports zero results or that every
    matching post is archived in a run in which nothing goes wrong.  A
    failure after the client is built is not caught: when the fetch
    raises, when the document service refuses a request, wherever in the
    run, or when the stored date of the last run is missing or does not
    parse while there are posts to archive, the exception leaves [main]
    and the status is not zero.  A run that ends with status zero has had
    an answer from the source and has had every request it sent to the
    document accepted. *)
Theorem exit_status_of_run (w : World) :
  (forall r,
     get_users_tweets w (LAST_SEEN_TWEET_ID w) 100 = inl r ->
     meta r = Some 0%Z ->
     exit_status (snd (script w)) = 0%Z)
  /\ (forall page, clean_run w page -> exit_status (snd (script w)) = 0%Z)
  /\ (forall e,
        get_users_tweets w (LAST_SEEN_TWEET_ID w) 100 = inr e ->
        snd (script w) = inr e /\ exit_status (snd (script w)) = 1%Z)
  /\ (forall rq,
        In (rq, false) (sent (trace (fst (script w)))) ->
        snd (script w) = inr HttpError
        /\ exit_status (snd (script w)) = 1%Z)
  /\ (forall r,
        get_users_tweets w (LAST_SEEN_TWEET_ID w) 100 = inl r ->
        no_results r = false ->
        last_run_year w = None ->
        exit_status (snd (script w)) = 1%Z)
  /\ (exit_status (snd (script w)) = 0%Z ->
      (exists r, get_users_tweets w (LAST_SEEN_TWEET_ID w) 100 = inl r)
      /\ Forall (fun x => snd x = true) (sent (trace (fst (script w))))).
Proof.
  split; [|split; [|split; [|split; [|split]]]].
  - intros r Hf Hm. rewrite script_unfold, Hf. unfold no_results.
    now rewrite Hm.
  - intros page Hc. destruct (clean_run_shape w page Hc) as (-> & _).
    reflexivity.
  - intros e He. rewrite script_unfold, He. now split.
  - intros rq Hin. rewrite (refused_stops w rq Hin). now split.
  - intros r Hf Hn Hy.
    rewrite script_unfold, Hf, Hn, archive_tweets_unfold,
      doc_update_year_cases.
    unfold last_run_year in Hy.
    destruct (LAST_RUN_DATE w) as [s|]; [|reflexivity].
    destruct (strptime_mdY s) as [d|]; [discriminate | reflexivity].
  - intros H0. split.
    + revert H0. rewrite script_unfold.
      destruct (get_users_tweets w (LAST_SEEN_TWEET_ID w) 100) as [r|e];
        [now exists r | discriminate].
    + rewrite Forall_forall. intros [rq []] Hin; [reflexivity|].
      rewrite (refused_stops w rq Hin) in H0. discriminate.
Qed.

Lemma exit_status_of_run_witness :
  exit_status (snd (script world_four)) = 0%Z
  /\ snd (script world_fetch_down) = inr TweepyException
  /\ exit_status (snd (script world_fetch_down)) = 1%Z.
Proof.
  split.
  - destruct (exit_status_of_run world_four) as (_ & H & _).
    exact (H [post_104; post_103; post_102; post_101] world_four_clean).
  - destruct (exit_status_of_run world_fetch_down) as (_ & _ & H & _).
    apply (H TweepyException). reflexivity.
Defined.

(** ** C10: what the watermark is saved for *)

Lemma NoDup_map_inj {A B : Type} (f : A -> B) (l : list A) (a b : A) :
  NoDup (map f l) -> In a l -> In b l -> f a = f b -> a = b.
Proof.
  induction l as [|x l IH]; cbn; [contradiction|].
  intros Hnd Ha Hb Hf. inversion Hnd as [|y m Hx Hl]; subst.
  destruct Ha as [-> | Ha], Hb as [-> | Hb]; auto.
  - exfalso. apply Hx. rewrite Hf. now apply in_map.
  - exfalso. apply Hx. rewrite <- Hf. now apply in_map.
Qed.

Lemma saves_clean (w : World) (page : list Tweet) :
  clean_run w page ->
  saves (trace (fst (script w))) = map id (rev (filter matches page)).
Proof.
  intros Hc. destruct (clean_run_shape w page Hc) as (_ & Ht & _ & _).
  destruct Hc as [_ _ _ Hwf _].
  assert (Hwf' : Forall well_formed (rev page)).
  { rewrite Forall_forall in *. intros t Hin. apply Hwf. now apply in_rev. }
  rewrite Ht, !saves_app, saves_header. cbn [saves opening app].
  rewrite saves_posts by now apply matching_parsed.
  rewrite <- filter_rev. apply strip_ids.
  rewrite Forall_forall in *. intros t Hin. apply filter_In in Hin.
  now apply Hwf'.
Qed.

(** C10, as stated, fails on the code in its last part: a post that does
    not match and is older than a matching post of the same page is not
    saved, and yet it ends below the watermark and the next run does not
    fetch it. *)
Lemma nonmatching_refetched_counterexample :
  matches post_102 = false
  /\ ~ In (id post_102) (saves (trace (fst (script world_three))))
  /\ watermark (fst (script world_three)) = Some "103"
  /\ olderb "103" (id post_102) = false
  /\ get_users_tweets (next_run world_three (fst (script world_three)))
       (LAST_SEEN_TWEET_ID (next_run world_three (fst (script world_three))))
       100
     = inl {| meta := Some 0%Z; data := None |}.
Proof.
  split; [vm_compute; reflexivity|].
  split; [vm_compute; intros [H | [H | []]]; discriminate|].
  repeat split; vm_compute; reflexivity.
Qed.

Lemma older_trans (a b c : string) : older a b -> older b c -> older a c.
Proof.
  intros (x & y & Ha & Hb & Hxy) (y' & z & Hb' & Hc & Hyz).
  rewrite Hb in Hb'. injection Hb' as <-.
  exists x, z. repeat split; auto. lia.
Qed.

Lemma older_asym (a b : string) : older a b -> ~ older b a.
Proof.
  intros (x & y & Ha & Hb & Hxy) (y' & x' & Hb' & Ha' & Hyx).
  rewrite Hb in Hb'. injection Hb' as <-.
  rewrite Ha in Ha'. injection Ha' as <-. lia.
Qed.

(** On a page that comes newest first, the first matching post is the
    newest of the matching posts. *)
Lemma find_newest (page : list Tweet) (u m : Tweet) :
  StronglySorted (fun a b => older (id b) (id a)) page ->
  In u page -> matches u = true -> find matches page = Some m ->
  u = m \/ older (id u) (id m).
Proof.
  induction 1 as [|a l Hs IH Ha]; intros Hin Hu Hf; [contradiction|].
  cbn [find] in Hf. destruct (matches a) eqn:Hm.
  - injection Hf as <-. destruct Hin as [-> | Hin]; [now left|].
    right. rewrite Forall_forall in Ha. now apply Ha.
  - destruct Hin as [-> | Hin]; [congruence|]. now apply IH.
Qed.

Lemma find_matching (page : list Tweet) (u : Tweet) :
  In u page -> matches u = true -> exists m, find matches page = Some m.
Proof.
  intros Hin Hu. destruct (find matches page) as [m|] eqn:E;
    [now exists m|].
  rewrite (find_none _ _ E u Hin) in Hu. discriminate.
Qed.

(** C10, amended: in a run in which nothing goes wrong, the values saved
    for the watermark are the identifiers of the matching posts of the
    page, oldest first, so that the watermark ends at the newest matching
    post and stays where it was when no post matches; the identifier of a
    post that does not match is not saved (identifiers being distinct); a
    post that does not match is passed over whenever it is processed, and
    one that is newer than the newest matching post is still above the
    watermark after the run.  On a page that comes newest first, a post
    that does not match and is older than a matching post of the page
    ends below the watermark, which the next run reads and fetches with,
    and a source that keeps its word on [since_id] does not return it to
    that run. *)
Theorem watermark_only_for_matching (w : World) (page : list Tweet) :
  clean_run w page ->
  saves (trace (fst (script w))) = map id (rev (filter matches page))
  /\ watermark (fst (script w))
     = match find matches page with
       | Some m => Some (id m)
       | None => watermark (initial w)
       end
  /\ (NoDup (map id page) ->
      forall t, In t page -> matches t = false ->
                ~ In (id t) (saves (trace (fst (script w)))))
  /\ (forall t, matches t = false ->
      (forall w' st, archive_tweet w' t st = (st, inl tt))
      /\ (forall m, find matches page = Some m -> older (id m) (id t) ->
          exists wm, watermark (fst (script w)) = Some wm
                     /\ older wm (id t)))
  /\ (StronglySorted (fun a b => older (id b) (id a)) page ->
      forall t u,
        In t page -> matches t = false ->
        In u page -> matches u = true -> older (id t) (id u) ->
        exists wm,
          watermark (fst (script w)) = Some wm
          /\ older (id t) wm
          /\ LAST_SEEN_TWEET_ID (next_run w (fst (script w))) = Some wm
          /\ (since_id_honoured w ->
              forall r' page',
                get_users_tweets (next_run w (fst (script w)))
                  (LAST_SEEN_TWEET_ID (next_run w (fst (script w)))) 100
                = inl r' ->
                data r' = Some page' -> ~ In t page')).
Proof.
  intros Hc.
  pose proof (saves_clean w page Hc) as Hs.
  pose proof (watermark_clean w page Hc) as Hw.
  split; [exact Hs|]. split; [exact Hw|]. split; [|split].
  - intros Hnd t Hin Hm Hsaved. rewrite Hs in Hsaved.
    apply in_map_iff in Hsaved. destruct Hsaved as (u & Hid & Hu).
    apply in_rev, filter_In in Hu. destruct Hu as [Hu Hmu].
    assert (u = t) by (apply (NoDup_map_inj id page); auto).
    subst u. congruence.
  - intros t Hm. split.
    + intros w' st. now apply archive_tweet_skip.
    + intros m Hf Ho. exists (id m). rewrite Hw, Hf. now split.
  - intros Hsorted t u Ht Hmt Hu Hmu Ho.
    destruct (find_matching page u Hu Hmu) as (m & Hf).
    assert (Hbelow : older (id t) (id m)).
    { destruct (find_newest page u m Hsorted Hu Hmu Hf) as [<- | Hum];
        [exact Ho | exact (older_trans _ _ _ Ho Hum)]. }
    rewrite Hf in Hw.
    assert (Hl : LAST_SEEN_TWEET_ID (next_run w (fst (script w)))
                 = Some (id m)) by exact Hw.
    exists (id m). split; [exact Hw|]. split; [exact Hbelow|].
    split; [exact Hl|].
    intros Hhon r' page' Hr' Hd' Hin'. rewrite Hl in Hr'.
    change (get_users_tweets (next_run w (fst (script w))))
      with (get_users_tweets w) in Hr'.
    apply (older_asym _ _ Hbelow).
    exact (Hhon (id m) 100%Z r' page' t Hr' Hd' Hin').
Qed.

Lemma watermark_only_for_matching_witness :
  saves (trace (fst (script world_four)))
  = map id (rev (filter matches [post_104; post_103; post_102; post_101]))
  /\ watermark (fst (script world_four)) = Some "103"
  /\ (exists wm, watermark (fst (script world_four)) = Some wm
                 /\ older wm (id post_104))
  /\ (exists wm,
        watermark (fst (script world_four)) = Some wm
        /\ older (id post_102) wm
        /\ LAST_SEEN_TWEET_ID (next_run world_four (fst (script world_four)))
           = Some wm
        /\ forall r' page',
             get_users_tweets (next_run world_four (fst (script world_four)))
               (LAST_SEEN_TWEET_ID
                  (next_run world_four (fst (script world_four)))) 100
             = inl r' ->
             data r' = Some page' -> ~ In post_102 page').
Proof.
  destruct (watermark_only_for_matching world_four
              [post_104; post_103; post_102; post_101] world_four_clean)
    as (H1 & H2 & _ & H4 & H5).
  split; [exact H1|]. split; [exact H2|]. split.
  - destruct (H4 post_104 eq_refl) as [_ H]. apply (H post_103).
    + reflexivity.
    + apply olderb_older. reflexivity.
  - assert (Hsorted : StronglySorted (fun a b => older (id b) (id a))
                        [post_104; post_103; post_102; post_101])
      by (repeat constructor; apply olderb_older; reflexivity).
    assert (Hin2 : In post_102 [post_104; post_103; post_102; post_101])
      by (cbn; tauto).
    assert (Hin3 : In post_103 [post_104; post_103; post_102; post_101])
      by (cbn; tauto).
    destruct (H5 Hsorted post_102 post_103 Hin2 eq_refl Hin3 eq_refl
                (olderb_older (id post_102) (id post_103) eq_refl))
      as (wm & Ha & Hb & Hc & Hd).
    exists wm. repeat split; auto.
    apply Hd. apply timeline_api_honours.
Defined.

(* ================================================================== *)
(** * Further properties of the code *)

(** ** Stripping quotes *)

Lemma rstrip_quotes_idem (s : string) :
  rstrip_quotes (rstrip_quotes s) = rstrip_quotes s.
Proof.
  induction s as [|a s IH]; [reflexivity|].
  cbn [rstrip_quotes].
  destruct (rstrip_quotes s) as [|b u] eqn:E.
  - destruct (is_quote a) eqn:Ea; [reflexivity|].
    cbn [rstrip_quotes]. now rewrite Ea.
  - cbn [rstrip_quotes]. fold rstrip_quotes.
    change (match rstrip_quotes u with
            | EmptyString =>
                if is_quote b then EmptyString else String b EmptyString
            | String a0 s0 => String b (String a0 s0)
            end) with (rstrip_quotes (String b u)).
    now rewrite IH.
Qed.

Lemma lstrip_quotes_head (s : string) (a : ascii) (r : string) :
  lstrip_quotes s = String a r -> is_quote a = false.
Proof.
  induction s as [|b s IH]; [discriminate|].
  cbn [lstrip_quotes]. destruct (is_quote b) eqn:Eb; [exact IH|].
  intros H. now injection H as <- _.
Qed.

Lemma rstrip_quotes_head (a : ascii) (s : string) :
  is_quote a = false -> exists r, rstrip_quotes (String a s) = String a r.
Proof.
  intros Ea. cbn [rstrip_quotes].
  destruct (rstrip_quotes s) as [|b u].
  - rewrite Ea. now exists EmptyString.
  - now exists (String b u).
Qed.

(** Stripping twice is stripping once: what is stored has no quote left
    at either end. *)
Lemma strip_quotes_idem (s : string) :
  strip_quotes (strip_quotes s) = strip_quotes s.
Proof.
  unfold strip_quotes.
  destruct (lstrip_quotes s) as [|a r] eqn:E; [reflexivity|].
  pose proof (lstrip_quotes_head s a r E) as Ea.
  destruct (rstrip_quotes_head a r Ea) as (u & Hu). rewrite Hu.
  assert (Hl : lstrip_quotes (String a u) = String a u)
    by (cbn [lstrip_quotes]; now rewrite Ea).
  rewrite Hl, <- Hu. apply rstrip_quotes_idem.
Qed.

Lemma env_get_other (k key v : string) (e : Env) :
  k <> key -> env_get k (env_set key v e) = env_get k e.
Proof.
  intros H. unfold env_set. cbn [env_get].
  destruct (String.eqb key k) eqn:E; [|reflexivity].
  apply String.eqb_eq in E. congruence.
Qed.

Lemma env_get_same (key v : string) (e : Env) :
  env_get key (env_set key v e) = Some v.
Proof. unfold env_set. cbn [env_get]. now rewrite String.eqb_refl. Qed.

(** ** [save_last_seen_id] and [save_last_run_date] *)

(** X1. [save_last_seen_id] raises [ValueError] and changes nothing when
    the identifier, without the quotes at its ends, holds a null
    character.  Otherwise it puts that value, which stripping again
    leaves as it is, in [os.environ] under the key of the watermark, and
    asks for it to be written in the [.env] file: when the file is
    written, both stores hold the value and the line printed shows the
    identifier as it was given; when [dotenv.set_key] returns without
    writing, the file is as it was and the line is printed all the same;
    when it raises, the exception leaves the function with [os.environ]
    already set and nothing printed.  No other key of either store
    changes and nothing is sent to the document. *)
Theorem save_last_seen_id_effect (w : World) (new_id : string) (st : State) :
  (has_nul (strip_quotes new_id) = true ->
   save_last_seen_id w new_id st = (st, inr ValueError))
  /\ (has_nul (strip_quotes new_id) = false ->
      env_get KEY (environ (fst (save_last_seen_id w new_id st)))
      = Some (strip_quotes new_id)
      /\ strip_quotes (strip_quotes new_id) = strip_quotes new_id
      /\ (forall k, k <> KEY ->
          env_get k (environ (fst (save_last_seen_id w new_id st)))
          = env_get k (environ st)
          /\ env_get k (dotenv (fst (save_last_seen_id w new_id st)))
             = env_get k (dotenv st))
      /\ sent (trace (fst (save_last_seen_id w new_id st)))
         = sent (trace st)
      /\ match set_key_outcome w (dotenv_calls st) with
         | Written =>
             snd (save_last_seen_id w new_id st) = inl tt
             /\ env_get KEY (dotenv (fst (save_last_seen_id w new_id st)))
                = Some (strip_quotes new_id)
             /\ trace (fst (save_last_seen_id w new_id st))
                = trace st
                  ++ [ SetEnviron KEY (strip_quotes new_id);
                       DotenvSetKey KEY (strip_quotes new_id);
                       Print ("Saved last seen tweet ID: " +++ new_id) ]
         | Skipped =>
             snd (save_last_seen_id w new_id st) = inl tt
             /\ dotenv (fst (save_last_seen_id w new_id st)) = dotenv st
             /\ trace (fst (save_last_seen_id w new_id st))
                = trace st
                  ++ [ SetEnviron KEY (strip_quotes new_id);
                       DotenvNotWritten KEY (strip_quotes new_id) false;
                       Print ("Saved last seen tweet ID: " +++ new_id) ]
         | Failed =>
             snd (save_last_seen_id w new_id st) = inr OSError
             /\ dotenv (fst (save_last_seen_id w new_id st)) = dotenv st
             /\ trace (fst (save_last_seen_id w new_id st))
                = trace st
                  ++ [ SetEnviron KEY (strip_quotes new_id);
                       DotenvNotWritten KEY (strip_quotes new_id) true ]
         end).
Proof.
  destruct st as [env dot calls wcalls tr].
  unfold save_last_seen_id. step. split; intros Hnul; rewrite Hnul;
    [reflexivity|].
  step.
  change (env_get "LAST_SEEN_TWEET_ID"
            (env_set "LAST_SEEN_TWEET_ID" (strip_quotes new_id) env))
    with (Some (strip_quotes new_id)).
  step. rewrite !strip_quotes_idem.
  destruct (set_key_outcome w wcalls); step; cbn [fst snd];
    (split; [reflexivity|]); (split; [reflexivity|]);
    (split; [intros k Hk; split;
             [now apply (env_get_other k KEY)
             | try reflexivity; now apply (env_get_other k KEY)]|]);
    (split; [rewrite !sent_app; cbn; now rewrite !app_nil_r|]);
    repeat split; now rewrite <- !app_assoc.
Qed.

Lemma save_last_seen_id_effect_witness :
  env_get KEY (environ (fst (save_last_seen_id world_four
                               (String DQUOTE "205") state_quoted)))
  = Some "205"
  /\ env_get RUN_KEY (dotenv (fst (save_last_seen_id world_four
                                    (String DQUOTE "205") state_quoted)))
     = env_get RUN_KEY (dotenv state_quoted).
Proof.
  destruct (save_last_seen_id_effect world_four (String DQUOTE "205")
              state_quoted) as (_ & H).
  destruct (H eq_refl) as (H1 & _ & H3 & _).
  split; [exact H1|]. apply (H3 RUN_KEY). discriminate.
Defined.

(** The three ways a save can go wrong, run on a state with quoted
    values: a null character in the identifier, a [.env] file that is not
    written, and one that cannot be written. *)
Example save_last_seen_id_failures :
  save_last_seen_id world_four id_with_nul state_quoted
  = (state_quoted, inr ValueError)
  /\ snd (save_last_seen_id (with_env_file world_four 0 Skipped) "205"
            state_quoted) = inl tt
  /\ watermark (fst (save_last_seen_id (with_env_file world_four 0 Skipped)
                       "205" state_quoted))
     = watermark state_quoted
  /\ snd (save_last_seen_id (with_env_file world_four 0 Failed) "205"
            state_quoted) = inr OSError
  /\ env_get KEY (environ (fst (save_last_seen_id
                                  (with_env_file world_four 0 Failed) "205"
                                  state_quoted)))
     = Some "205".
Proof. vm_compute. repeat split. Qed.

(** X2. [save_last_run_date] raises [ValueError] and changes nothing
    when the date, without the quotes at its ends, holds a null
    character.  Otherwise it puts that value in [os.environ] under the
    key of the last run and asks for it to be written in the [.env] file:
    when the file is written both stores hold the value and one line is
    printed; when [dotenv.set_key] returns without writing, the file is as
    it was and the line is printed; when it raises, the exception leaves
    the function and nothing is printed.  In no case does another key
    change, so the watermark stays where it was in both stores, and
    nothing is sent to the document. *)
Theorem save_last_run_date_effect (w : World) (date : string) (st : State) :
  (has_nul (strip_quotes date) = true ->
   save_last_run_date w date st = (st, inr ValueError))
  /\ (has_nul (strip_quotes date) = false ->
      env_get RUN_KEY (environ (fst (save_last_run_date w date st)))
      = Some (strip_quotes date)
      /\ (forall k, k <> RUN_KEY ->
          env_get k (environ (fst (save_last_run_date w date st)))
          = env_get k (environ st)
          /\ env_get k (dotenv (fst (save_last_run_date w date st)))
             = env_get k (dotenv st))
      /\ watermark (fst (save_last_run_date w date st)) = watermark st
      /\ sent (trace (fst (save_last_run_date w date st))) = sent (trace st)
      /\ match set_key_outcome w (dotenv_calls st) with
         | Written =>
             snd (save_last_run_date w date st) = inl tt
             /\ env_get RUN_KEY (dotenv (fst (save_last_run_date w date st)))
                = Some (strip_quotes date)
             /\ printed (trace (fst (save_last_run_date w date st)))
                = printed (trace st) ++ ["Saved last run date: " +++ date]
         | Skipped =>
             snd (save_last_run_date w date st) = inl tt
             /\ dotenv (fst (save_last_run_date w date st)) = dotenv st
             /\ printed (trace (fst (save_last_run_date w date st)))
                = printed (trace st) ++ ["Saved last run date: " +++ date]
         | Failed =>
             snd (save_last_run_date w date st) = inr OSError
             /\ dotenv (fst (save_last_run_date w date st)) = dotenv st
             /\ printed (trace (fst (save_last_run_date w date st)))
                = printed (trace st)
         end).
Proof.
  destruct st as [env dot calls wcalls tr].
  unfold save_last_run_date. step. split; intros Hnul; rewrite Hnul;
    [reflexivity|].
  step.
  change (env_get "LAST_RUN_DATE"
            (env_set "LAST_RUN_DATE" (strip_quotes date) env))
    with (Some (strip_quotes date)).
  step. rewrite !strip_quotes_idem.
  assert (Hk : KEY <> RUN_KEY) by discriminate.
  destruct (set_key_outcome w wcalls); step; cbn [fst snd];
    (split; [reflexivity|]);
    (split; [intros k Hk'; split;
             [now apply (env_get_other k RUN_KEY)
             | try reflexivity; now apply (env_get_other k RUN_KEY)]|]);
    (split; [unfold watermark; cbn [dotenv]; try reflexivity;
             now apply (env_get_other KEY RUN_KEY)|]);
    (split; [rewrite !sent_app; cbn; now rewrite !app_nil_r|]);
    repeat split; rewrite !printed_app; cbn; now rewrite ?app_nil_r.
Qed.

Lemma save_last_run_date_effect_witness :
  env_get RUN_KEY
    (environ (fst (save_last_run_date world_four "01/05/2024" state_quoted)))
  = Some "01/05/2024"
  /\ env_get KEY
       (dotenv (fst (save_last_run_date world_four "01/05/2024" state_quoted)))
     = env_get KEY (dotenv state_quoted).
Proof.
  destruct (save_last_run_date_effect world_four "01/05/2024" state_quoted)
    as (_ & H).
  destruct (H eq_refl) as (H1 & H2 & _).
  split; [exact H1|]. apply (H2 KEY). discriminate.
Defined.

(** ** What any run does to the two stores *)

Lemma saves_opening (w : World) : saves (opening w) = [].
Proof. reflexivity. Qed.

(** The saves of the loop are those of the posts archived to the end
    whose write reached the [.env] file; the environment holds the
    identifiers of the posts archived to the end and, when the loop
    stopped on the [.env] file, that of the post it stopped at. *)
Lemma loop_saves (w : World) (l : list Tweet) (st : State) :
  exists done rest set,
    filter matches l = map fst done ++ rest
    /\ Forall (archived w) done
    /\ saves (trace (fst (for_each (archive_tweet w) l st)))
       = saves (trace st)
         ++ map (fun t => strip_quotes (strip_quotes (id t))) (written done)
    /\ environ (fst (for_each (archive_tweet w) l st))
       = environ_after set (environ st)
    /\ dotenv (fst (for_each (archive_tweet w) l st))
       = dotenv_after (written done) (dotenv st)
    /\ (set = map fst done
        \/ exists p k, set = map fst done ++ [p]
                       /\ set_key_outcome w k = Failed).
Proof.
  destruct (loop_shape w l st)
    as (done & rest & partial & Hf & Hd & Ht & Hv & Hr).
  assert (Hp : saves partial = []).
  { destruct (snd (for_each (archive_tweet w) l st)) as [[]|e].
    - destruct Hr as (_ & -> & _). reflexivity.
    - destruct Hr as (p & rest' & _ & Hs & _).
      exact (saves_stopped w p partial e Hs). }
  assert (Hs : saves (trace (fst (for_each (archive_tweet w) l st)))
               = saves (trace st)
                 ++ map (fun t => strip_quotes (strip_quotes (id t)))
                      (written done))
    by (now rewrite Ht, !saves_app, (saves_archived w done Hd), Hp,
          app_nil_r).
  destruct (snd (for_each (archive_tweet w) l st)) as [[]|e].
  - destruct Hr as (_ & _ & He).
    exists done, rest, (map fst done). repeat split; auto.
  - destruct Hr as (p & rest' & _ & Hstop & He).
    exists done, rest, (map fst done ++ set_not_written e p).
    repeat split; auto.
    destruct Hstop as [(-> & _)
                      | [(-> & _)
                        | [(-> & _) | (-> & _ & (k & Hk) & _)]]];
      cbn [set_not_written]; rewrite ?app_nil_r; auto.
    right. now exists p, k.
Qed.

(** Whatever happens in a run, the saves it makes are those of matching
    posts of the fetched page, oldest first, and the two stores are what
    these saves make of them. *)
Lemma script_saves (w : World) :
  exists done set,
    saves (trace (fst (script w)))
    = map (fun t => strip_quotes (strip_quotes (id t))) (written done)
    /\ environ (fst (script w)) = environ_after set (environ0 w)
    /\ dotenv (fst (script w)) = dotenv_after (written done) (dotenv0 w)
    /\ Forall (archived w) done
    /\ (set = map fst done
        \/ exists p k, set = map fst done ++ [p]
                       /\ set_key_outcome w k = Failed)
    /\ (done = []
        \/ exists r page rest,
             get_users_tweets w (LAST_SEEN_TWEET_ID w) 100 = inl r
             /\ data r = Some page
             /\ filter matches (rev page) = map fst done ++ rest).
Proof.
  assert (Hnone : forall st : State,
            saves (trace st) = [] ->
            environ st = environ0 w -> dotenv st = dotenv0 w ->
            exists (done : list (Tweet * bool)) set,
              saves (trace st)
              = map (fun t => strip_quotes (strip_quotes (id t)))
                  (written done)
              /\ environ st = environ_after set (environ0 w)
              /\ dotenv st = dotenv_after (written done) (dotenv0 w)
              /\ Forall (archived w) done
              /\ (set = map fst done
                  \/ exists p k, set = map fst done ++ [p]
                                 /\ set_key_outcome w k = Failed)
              /\ (done = []
                  \/ exists r page rest,
                       get_users_tweets w (LAST_SEEN_TWEET_ID w) 100 = inl r
                       /\ data r = Some page
                       /\ filter matches (rev page) = map fst done ++ rest)).
  { intros st Hs He Hv. exists [], []. rewrite Hs, He, Hv.
    repeat split; auto. }
  rewrite script_unfold.
  destruct (get_users_tweets w (LAST_SEEN_TWEET_ID w) 100) as [r|e] eqn:Hf.
  2:{ now apply Hnone. }
  destruct (no_results r).
  { now apply Hnone. }
  rewrite archive_tweets_unfold, doc_update_year_cases.
  destruct (LAST_RUN_DATE w) as [s|].
  2:{ now apply Hnone. }
  destruct (strptime_mdY s) as [d|].
  2:{ now apply Hnone. }
  assert (Hloop : forall st1 page,
            data r = Some page ->
            saves (trace st1) = [] ->
            environ st1 = environ0 w -> dotenv st1 = dotenv0 w ->
            exists (done : list (Tweet * bool)) set,
              saves (trace (fst (for_each (archive_tweet w) (rev page) st1)))
              = map (fun t => strip_quotes (strip_quotes (id t)))
                  (written done)
              /\ environ (fst (for_each (archive_tweet w) (rev page) st1))
                 = environ_after set (environ0 w)
              /\ dotenv (fst (for_each (archive_tweet w) (rev page) st1))
                 = dotenv_after (written done) (dotenv0 w)
              /\ Forall (archived w) done
              /\ (set = map fst done
                  \/ exists p k, set = map fst done ++ [p]
                                 /\ set_key_outcome w k = Failed)
              /\ (done = []
                  \/ exists r0 page0 rest,
                       @inl Response Exn r = inl r0
                       /\ data r0 = Some page0
                       /\ filter matches (rev page0) = map fst done ++ rest)).
  { intros st1 page Hd Hs He Hv.
    destruct (loop_saves w (rev page) st1)
      as (done & rest & set & H1 & H2 & H3 & H4 & H5 & H6).
    exists done, set. rewrite H3, H4, H5, Hs, He, Hv. repeat split; auto.
    right. now exists r, page, rest. }
  destruct (year d <? now_year w)%Z.
  - unfold batchUpdate. cbn [gd_calls opened with_trace initial].
    destruct (docs_ok w 0).
    + destruct (data r) as [page|] eqn:Hd.
      * match goal with
        | |- context [for_each _ _ ?s] =>
            destruct (Hloop s page eq_refl eq_refl eq_refl eq_refl)
              as (done & set & H);
            destruct (for_each (archive_tweet w) (rev page) s)
              as [st' [[]|e]]
        end; exists done, set; exact H.
      * now apply Hnone.
    + now apply Hnone.
  - destruct (data r) as [page|] eqn:Hd.
    + destruct (Hloop (opened w) page eq_refl eq_refl eq_refl eq_refl)
        as (done & set & H).
      destruct (for_each (archive_tweet w) (rev page) (opened w))
        as [st' [[]|e]]; exists done, set; exact H.
    + now apply Hnone.
Qed.

Lemma environ_after_other (k : string) (done : list Tweet) (e : Env) :
  k <> KEY -> env_get k (environ_after done e) = env_get k e.
Proof.
  intros Hk. revert e. induction done as [|t done IH]; intros e;
    [reflexivity|].
  unfold environ_after. cbn [fold_left]. fold (environ_after done).
  unfold environ_after in IH. rewrite IH. now apply env_get_other.
Qed.

Lemma dotenv_after_other (k : string) (done : list Tweet) (e : Env) :
  k <> KEY -> env_get k (dotenv_after done e) = env_get k e.
Proof.
  intros Hk. revert e. induction done as [|t done IH]; intros e;
    [reflexivity|].
  unfold dotenv_after. cbn [fold_left].
  unfold dotenv_after in IH. rewrite IH. now apply env_get_other.
Qed.

Lemma environ_after_last (done : list Tweet) (e : Env) :
  env_get KEY (environ_after done e) =
    match rev done with
    | t :: _ => Some (strip_quotes (id t))
    | [] => env_get KEY e
    end.
Proof.
  induction done as [|t done IH] using rev_ind; [reflexivity|].
  unfold environ_after. rewrite fold_left_app, rev_app_distr. reflexivity.
Qed.

(** X3. No run writes the date of the last run: whatever the source and
    the document service answer, both stores hold under [LAST_RUN_DATE]
    after the run what they held before it (as they do for every key but
    the watermark), so the next run, which reads the [.env] file, decides
    on the year header from the same date. *)
Theorem last_run_date_never_written (w : World) :
  env_get RUN_KEY (environ (fst (script w))) = env_get RUN_KEY (environ0 w)
  /\ env_get RUN_KEY (dotenv (fst (script w))) = env_get RUN_KEY (dotenv0 w)
  /\ LAST_RUN_DATE (next_run w (fst (script w)))
     = env_get RUN_KEY (dotenv0 w)
  /\ (forall k, k <> KEY ->
      env_get k (environ (fst (script w))) = env_get k (environ0 w)
      /\ env_get k (dotenv (fst (script w))) = env_get k (dotenv0 w)).
Proof.
  destruct (script_saves w) as (done & set & _ & He & Hv & _).
  assert (H : forall k, k <> KEY ->
      env_get k (environ (fst (script w))) = env_get k (environ0 w)
      /\ env_get k (dotenv (fst (script w))) = env_get k (dotenv0 w)).
  { intros k Hk. rewrite He, Hv.
    now rewrite environ_after_other, dotenv_after_other. }
  assert (Hk : RUN_KEY <> KEY) by discriminate.
  destruct (H RUN_KEY Hk) as [H1 H2].
  repeat split; auto; try now apply H.
Qed.

Lemma last_run_date_never_written_witness :
  env_get RUN_KEY (dotenv (fst (script world_new_year))) = Some "12/31/2023"
  /\ env_get "DOCUMENT_ID" (environ (fst (script world_new_year)))
     = env_get "DOCUMENT_ID" (environ0 world_new_year).
Proof.
  destruct (last_run_date_never_written world_new_year) as (_ & H2 & _ & H4).
  split; [exact H2|]. apply (H4 "DOCUMENT_ID"). discriminate.
Defined.

(** X10. The two stores stay in step as long as the [.env] file is
    written each time the code asks for it: when [os.environ] and the
    file agree on the watermark before a run, they agree on it after the
    run, whatever the identifiers look like and wherever the run stops (a
    fetch that raises, a date that does not parse, a refused request, an
    identifier that cannot be put in the environment).  A write of the
    file that is skipped or fails is what puts them out of step. *)
Theorem stores_in_step (w : World) :
  env_file_up w ->
  env_get KEY (environ0 w) = env_get KEY (dotenv0 w) ->
  env_get KEY (environ (fst (script w)))
  = env_get KEY (dotenv (fst (script w))).
Proof.
  intros Hup H0.
  destruct (script_saves w) as (done & set & _ & He & Hv & Hd & Hs & _).
  destruct (all_written done (archived_written w done Hup Hd)) as [Hw _].
  destruct Hs as [-> | (p & k & _ & Hk)];
    [|rewrite Hup in Hk; discriminate].
  rewrite He, Hv, Hw, environ_after_last, dotenv_after_last.
  destruct (rev (map fst done)) as [|t l]; [exact H0|].
  now rewrite strip_quotes_idem.
Qed.

Lemma stores_in_step_witness :
  env_get KEY (environ (fst (script world_write_refused)))
  = env_get KEY (dotenv (fst (script world_write_refused))).
Proof.
  apply (stores_in_step world_write_refused).
  - intros n. reflexivity.
  - reflexivity.
Defined.

(** With a [.env] file that is not written at the first save the two
    stores end out of step, and so they do when it cannot be written. *)
Example stores_out_of_step :
  env_get KEY (environ (fst (script (with_env_file world_new_year 0 Skipped))))
  = Some "101"
  /\ env_get KEY
       (dotenv (fst (script (with_env_file world_new_year 0 Skipped))))
     = Some "100"
  /\ snd (script (with_env_file world_new_year 0 Skipped)) = inl None
  /\ env_get KEY
       (environ (fst (script (with_env_file world_new_year 0 Failed))))
     = Some "101"
  /\ env_get KEY
       (dotenv (fst (script (with_env_file world_new_year 0 Failed))))
     = Some "100"
  /\ snd (script (with_env_file world_new_year 0 Failed)) = inr OSError.
Proof. vm_compute. repeat split. Qed.

(** ** The watermark only moves up *)

Lemma sorted_snoc {A : Type} (R : A -> A -> Prop) (l : list A) (a : A) :
  StronglySorted R l -> Forall (fun x => R x a) l ->
  StronglySorted R (l ++ [a]).
Proof.
  induction 1 as [|b l Hs IH Hb]; intros Ha; cbn.
  - repeat constructor.
  - inversion Ha as [|? ? Hba Hl]; subst. constructor.
    + now apply IH.
    + apply Forall_app. split; [exact Hb | now constructor].
Qed.

Lemma sorted_rev {A : Type} (R : A -> A -> Prop) (l : list A) :
  StronglySorted R l -> StronglySorted (fun a b => R b a) (rev l).
Proof.
  induction 1 as [|a l Hs IH Ha]; cbn; [constructor|].
  apply sorted_snoc; [exact IH|].
  rewrite Forall_forall in *. intros x Hx. apply Ha. now apply in_rev.
Qed.

Lemma sorted_filter {A : Type} (R : A -> A -> Prop) (f : A -> bool)
    (l : list A) :
  StronglySorted R l -> StronglySorted R (filter f l).
Proof.
  induction 1 as [|a l Hs IH Ha]; cbn; [constructor|].
  destruct (f a); [|exact IH]. constructor; [exact IH|].
  rewrite Forall_forall in *. intros x Hx. apply Ha.
  now apply filter_In in Hx.
Qed.

Lemma sorted_prefix {A : Type} (R : A -> A -> Prop) (l1 l2 : list A) :
  StronglySorted R (l1 ++ l2) -> StronglySorted R l1.
Proof.
  induction l1 as [|a l1 IH]; cbn; [constructor|].
  intros H. inversion H as [|? ? Hs Ha]; subst. constructor.
  - now apply IH.
  - apply Forall_app in Ha. apply Ha.
Qed.

Lemma sorted_map {A B : Type} (R : B -> B -> Prop) (f : A -> B)
    (l : list A) :
  StronglySorted (fun a b => R (f a) (f b)) l -> StronglySorted R (map f l).
Proof.
  induction 1 as [|a l Hs IH Ha]; cbn; constructor; auto.
  rewrite Forall_forall in *. intros y Hy.
  apply in_map_iff in Hy. destruct Hy as (x & <- & Hx). now apply Ha.
Qed.

Lemma written_incl (done : list (Tweet * bool)) (t : Tweet) :
  In t (written done) -> In t (map fst done).
Proof.
  unfold written. intros H. apply in_map_iff in H.
  destruct H as (d & <- & Hd). apply filter_In in Hd.
  apply in_map. apply Hd.
Qed.

Lemma written_sorted (R : Tweet -> Tweet -> Prop)
    (done : list (Tweet * bool)) :
  StronglySorted R (map fst done) -> StronglySorted R (written done).
Proof.
  unfold written. induction done as [|[t b] done IH]; cbn [map filter fst snd];
    [constructor|].
  intros H. inversion H as [|? ? Hs Ha]; subst.
  destruct b; cbn [map fst]; [|now apply IH].
  constructor; [now apply IH|].
  rewrite Forall_forall in *. intros x Hx. apply Ha.
  now apply (written_incl done).
Qed.

Lemma older_numeric (a b : string) : older a b -> numeric b = true.
Proof.
  intros (x & y & _ & Hb & _). unfold numeric. now rewrite Hb.
Qed.

(** X11. The watermark only moves up within a run.  When the source
    returns posts above the stored watermark and newest first, the
    identifiers a run saves, in the order it saves them, go strictly up
    and are all above the stored watermark, wherever the run stops. *)
Theorem saves_go_up (w : World) (wm : string) :
  LAST_SEEN_TWEET_ID w = Some wm ->
  since_id_honoured w ->
  page_newest_first w ->
  StronglySorted older (saves (trace (fst (script w))))
  /\ Forall (older wm) (saves (trace (fst (script w)))).
Proof.
  intros Hwm Hs Hn.
  destruct (script_saves w) as (done & set & -> & _ & _ & _ & _ & Hd).
  destruct Hd as [-> | (r & page & rest & Hf & Hp & Hm)].
  { split; constructor. }
  assert (Hin : forall t, In t (written done) -> In t page).
  { intros t Ht. apply written_incl in Ht.
    assert (H : In t (filter matches (rev page)))
      by (rewrite Hm; apply in_or_app; now left).
    apply filter_In in H. now apply in_rev. }
  assert (Habove : forall t, In t (written done) -> older wm (id t)).
  { intros t Ht. rewrite Hwm in Hf.
    exact (Hs wm 100%Z r page t Hf Hp (Hin t Ht)). }
  assert (Hid : map (fun t => strip_quotes (strip_quotes (id t)))
                  (written done)
                = map id (written done)).
  { apply map_ext_in. intros t Ht.
    pose proof (older_numeric _ _ (Habove t Ht)) as Hnum.
    now rewrite !(strip_numeric _ Hnum). }
  rewrite Hid. split.
  - apply sorted_map. apply written_sorted.
    apply (sorted_prefix _ (map fst done) rest). rewrite <- Hm.
    apply sorted_filter.
    apply (sorted_rev (fun a b => older (id b) (id a))).
    exact (Hn r page Hf Hp).
  - apply Forall_map. rewrite Forall_forall. exact Habove.
Qed.

Lemma world_four_newest_first : page_newest_first world_four.
Proof.
  intros r page Hr Hd. vm_compute in Hr. injection Hr as <-.
  cbn [data] in Hd. injection Hd as <-.
  repeat constructor; apply olderb_older; reflexivity.
Qed.

Lemma saves_go_up_witness :
  StronglySorted older (saves (trace (fst (script world_four))))
  /\ Forall (older "100") (saves (trace (fst (script world_four)))).
Proof.
  apply (saves_go_up world_four "100").
  - reflexivity.
  - apply timeline_api_honours.
  - exact world_four_newest_first.
Defined.

(** ** One fetch in every run *)

(** X4. Every run fetches exactly once, with the watermark read from the
    environment as [since_id] (absent when the variable is not set) and
    at most 100 results, and it does so before it sends anything to the
    document: the trace is the line with the watermark, the fetch, and a
    rest without any fetch. *)
Theorem one_fetch_per_run (w : World) :
  fetches (trace (fst (script w))) = [(LAST_SEEN_TWEET_ID w, 100%Z)]
  /\ exists tail,
       trace (fst (script w))
       = Print ("Last seen tweet ID: " +++ fmt_opt (LAST_SEEN_TWEET_ID w))
         :: GetUsersTweets (LAST_SEEN_TWEET_ID w) 100 :: tail
       /\ fetches tail = [].
Proof.
  destruct (script_trace w) as (tail & Ht & Hc).
  assert (Hf : fetches tail = []).
  { destruct (get_users_tweets w (LAST_SEEN_TWEET_ID w) 100) as [r|e];
      [|now subst].
    destruct (no_results r); [now subst|].
    destruct (last_run_year w) as [y|]; [|now subst].
    destruct Hc as (body & -> & Hb). rewrite fetches_app.
    assert (Hh : fetches (if (y <? now_year w)%Z
                          then [BatchUpdate (year_header w) (docs_ok w 0)]
                          else []) = [])
      by (destruct (y <? now_year w)%Z; reflexivity).
    rewrite Hh. destruct Hb as [-> | (page & _ & Hl)]; [reflexivity|].
    now apply loop_events_sent in Hl. }
  split.
  - rewrite Ht, fetches_app, Hf. reflexivity.
  - exists tail. split; [exact Ht | exact Hf].
Qed.

(** ** Runs that stop before the loop *)

Lemma last_run_year_some (w : World) (y : Z) :
  last_run_year w = Some y ->
  exists s d, LAST_RUN_DATE w = Some s /\ strptime_mdY s = Some d
              /\ year d = y.
Proof.
  unfold last_run_year. destruct (LAST_RUN_DATE w) as [s|]; [|discriminate].
  destruct (strptime_mdY s) as [d|] eqn:E; [|discriminate].
  cbn. intros H. injection H as <-. now exists s, d.
Qed.

(** X5. A response without the key ["data"] that does not report zero
    results makes the run end with [KeyError], and only after the year
    header, when it is due, has been inserted: the header is the only
    request sent, nothing is saved and both stores are as they were. *)
Theorem missing_data_key (w : World) (r : Response) (y : Z) :
  get_users_tweets w (LAST_SEEN_TWEET_ID w) 100 = inl r ->
  no_results r = false ->
  data r = None ->
  last_run_year w = Some y ->
  docs_ok w 0 = true ->
  snd (script w) = inr KeyError
  /\ sent (trace (fst (script w)))
     = (if (y <? now_year w)%Z then [(year_header w, true)] else [])
  /\ saves (trace (fst (script w))) = []
  /\ environ (fst (script w)) = environ0 w
  /\ dotenv (fst (script w)) = dotenv0 w.
Proof.
  intros Hf Hn Hd Hy Hok.
  destruct (last_run_year_some w y Hy) as (s & d & Hs & Hp & <-).
  rewrite script_unfold, Hf, Hn, archive_tweets_unfold,
    doc_update_year_cases, Hs, Hp, Hd.
  destruct (year d <? now_year w)%Z.
  - unfold batchUpdate. cbn [gd_calls opened with_trace initial].
    rewrite Hok. repeat split.
  - repeat split.
Qed.

Lemma missing_data_key_witness :
  snd (script world_no_data) = inr KeyError
  /\ sent (trace (fst (script world_no_data)))
     = (if (2023 <? now_year world_no_data)%Z
        then [(year_header world_no_data, true)] else [])
  /\ saves (trace (fst (script world_no_data))) = []
  /\ environ (fst (script world_no_data)) = environ0 world_no_data
  /\ dotenv (fst (script world_no_data)) = dotenv0 world_no_data.
Proof.
  apply (missing_data_key world_no_data {| meta := None; data := None |} 2023%Z);
    reflexivity.
Defined.

(** X6. A stored date of the last run that is missing or does not parse
    stops every run that has new posts to archive: the run ends with
    [TypeError] when the variable is not set and with [ValueError] when
    its value is not a date, before anything is sent to the document or
    saved, and the status of the process is not zero. *)
Theorem bad_last_run_date (w : World) (r : Response) :
  get_users_tweets w (LAST_SEEN_TWEET_ID w) 100 = inl r ->
  no_results r = false ->
  last_run_year w = None ->
  (snd (script w) = inr TypeError /\ LAST_RUN_DATE w = None
   \/ snd (script w) = inr ValueError /\ LAST_RUN_DATE w <> None)
  /\ sent (trace (fst (script w))) = []
  /\ saves (trace (fst (script w))) = []
  /\ environ (fst (script w)) = environ0 w
  /\ dotenv (fst (script w)) = dotenv0 w
  /\ exit_status (snd (script w)) = 1%Z.
Proof.
  intros Hf Hn Hy.
  rewrite script_unfold, Hf, Hn, archive_tweets_unfold, doc_update_year_cases.
  unfold last_run_year in Hy.
  destruct (LAST_RUN_DATE w) as [s|].
  - destruct (strptime_mdY s) as [d|]; [discriminate|].
    repeat split. right. split; [reflexivity | discriminate].
  - repeat split. left. now split.
Qed.

Lemma bad_last_run_date_witness :
  (snd (script world_bad_date) = inr TypeError
   /\ LAST_RUN_DATE world_bad_date = None
   \/ snd (script world_bad_date) = inr ValueError
      /\ LAST_RUN_DATE world_bad_date <> None)
  /\ sent (trace (fst (script world_bad_date))) = []
  /\ saves (trace (fst (script world_bad_date))) = []
  /\ environ (fst (script world_bad_date)) = environ0 world_bad_date
  /\ dotenv (fst (script world_bad_date)) = dotenv0 world_bad_date
  /\ exit_status (snd (script world_bad_date)) = 1%Z.
Proof.
  apply (bad_last_run_date world_bad_date
           {| meta := Some 1%Z; data := Some [post_101] |});
    reflexivity.
Defined.

(** X7. When the year header is due and the document service refuses
    it, the run ends with [HttpError] there: the refused header is the
    only request sent, no post is archived although posts were fetched,
    nothing is saved, and both stores are as they were. *)
Theorem refused_year_header (w : World) (r : Response) (y : Z) :
  get_users_tweets w (LAST_SEEN_TWEET_ID w) 100 = inl r ->
  no_results r = false ->
  last_run_year w = Some y ->
  (y < now_year w)%Z ->
  docs_ok w 0 = false ->
  snd (script w) = inr HttpError
  /\ sent (trace (fst (script w))) = [(year_header w, false)]
  /\ inserted_at 6 (trace (fst (script w))) = []
  /\ saves (trace (fst (script w))) = []
  /\ environ (fst (script w)) = environ0 w
  /\ dotenv (fst (script w)) = dotenv0 w.
Proof.
  intros Hf Hn Hy Hlt Hno.
  destruct (last_run_year_some w y Hy) as (s & d & Hs & Hp & <-).
  rewrite script_unfold, Hf, Hn, archive_tweets_unfold,
    doc_update_year_cases, Hs, Hp.
  apply Z.ltb_lt in Hlt. rewrite Hlt.
  unfold batchUpdate. cbn [gd_calls opened with_trace initial].
  rewrite Hno. repeat split.
Qed.

Lemma refused_year_header_witness :
  snd (script world_header_refused) = inr HttpError
  /\ sent (trace (fst (script world_header_refused)))
     = [(year_header world_header_refused, false)]
  /\ inserted_at 6 (trace (fst (script world_header_refused))) = []
  /\ saves (trace (fst (script world_header_refused))) = []
  /\ environ (fst (script world_header_refused))
     = environ0 world_header_refused
  /\ dotenv (fst (script world_header_refused))
     = dotenv0 world_header_refused.
Proof.
  apply (refused_year_header world_header_refused
           {| meta := Some 1%Z; data := Some [post_101] |} 2023%Z);
    try reflexivity.
Defined.

(** X8. When the fetch raises, the exception leaves [main] as it is: the
    run has printed the stored watermark and nothing else, has sent
    nothing to the document, has saved nothing, and both stores are as
    they were. *)
Theorem fetch_raises (w : World) (e : Exn) :
  get_users_tweets w (LAST_SEEN_TWEET_ID w) 100 = inr e ->
  snd (script w) = inr e
  /\ printed (trace (fst (script w)))
     = ["Last seen tweet ID: " +++ fmt_opt (LAST_SEEN_TWEET_ID w)]
  /\ sent (trace (fst (script w))) = []
  /\ saves (trace (fst (script w))) = []
  /\ environ (fst (script w)) = environ0 w
  /\ dotenv (fst (script w)) = dotenv0 w.
Proof.
  intros Hf. rewrite script_unfold, Hf. repeat split.
Qed.

Lemma fetch_raises_witness :
  snd (script world_fetch_down) = inr TweepyException
  /\ printed (trace (fst (script world_fetch_down)))
     = ["Last seen tweet ID: "
        +++ fmt_opt (LAST_SEEN_TWEET_ID world_fetch_down)]
  /\ sent (trace (fst (script world_fetch_down))) = []
  /\ saves (trace (fst (script world_fetch_down))) = []
  /\ environ (fst (script world_fetch_down)) = environ0 world_fetch_down
  /\ dotenv (fst (script world_fetch_down)) = dotenv0 world_fetch_down.
Proof.
  apply (fetch_raises world_fetch_down TweepyException). reflexivity.
Defined.

(** ** The offsets and the text they are meant for *)

Lemma substring_skip (a b : string) (n m : nat) :
  substring (String.length a + n) m (a +++ b) = substring n m b.
Proof. induction a as [|c a IH]; [reflexivity | exact IH]. Qed.

Lemma substring_prefix (a b : string) :
  substring 0 (String.length a) (a +++ b) = a.
Proof.
  induction a as [|c a IH]; cbn.
  - now destruct b.
  - now rewrite IH.
Qed.

Lemma format_tweet_split (date setup punchline : string) :
  format_tweet date setup punchline
  = (date +++ nl +++ setup +++ nl +++ tab) +++ punchline +++ nl +++ nl.
Proof. unfold format_tweet. now rewrite !app_assoc_s. Qed.

Lemma format_tweet_body (date setup punchline : string) :
  format_tweet date setup punchline
  = (date +++ nl +++ setup +++ nl +++ tab +++ punchline) +++ nl +++ nl.
Proof. unfold format_tweet. now rewrite !app_assoc_s. Qed.

(** X9. The constant 9 fits the entry and the position it is inserted
    at.  In a run in which nothing goes wrong, for every post of the page
    that matches, the run sends the insertion of its entry at position 6,
    then the paragraph style, then the italics, and, counted from
    position 6 where the entry goes, the range put in italics is exactly
    the punchline, and the range given the paragraph style starts with
    the entry and ends where the punchline ends, leaving out only the two
    newlines that close the entry.  Positions are counted in characters,
    as [len] counts them. *)
Theorem italics_cover_punchline (w : World) (page : list Tweet) (t : Tweet)
    (date setup punchline : string) :
  clean_run w page -> In t page ->
  parsed t = Some (date, setup, punchline) ->
  exists before after txt para_end it_start it_end,
    sent (trace (fst (script w)))
    = before
      ++ [ (InsertText 6 txt, true);
           (UpdateParagraphStyle 6 para_end, true);
           (UpdateTextStyle it_start it_end, true) ]
      ++ after
    /\ (6 <= it_start <= it_end)%Z
    /\ para_end = it_end
    /\ substring (Z.to_nat (it_start - 6)) (Z.to_nat (it_end - it_start)) txt
       = punchline
    /\ substring 0 (Z.to_nat (para_end - 6)) txt
       = date +++ nl +++ setup +++ nl +++ tab +++ punchline
    /\ txt = substring 0 (Z.to_nat (para_end - 6)) txt +++ nl +++ nl.
Proof.
  intros Hc Hin Hp.
  destruct (clean_run_sends w page t _ _ _ Hc Hin Hp)
    as (before & after & _ & Hs).
  exists (sent (header_events w)
          ++ flat_map (fun u => sent (post_events u)) before),
    (flat_map (fun u => sent (post_events u)) after),
    (format_tweet date setup punchline),
    (len (date +++ setup +++ punchline) + ITALICS_OFFSET)%Z,
    (len (date +++ setup) + ITALICS_OFFSET)%Z,
    (len (date +++ setup +++ punchline) + ITALICS_OFFSET)%Z.
  assert (Hbody : substring 0
             (Z.to_nat (len (date +++ setup +++ punchline)
                        + ITALICS_OFFSET - 6))
             (format_tweet date setup punchline)
           = date +++ nl +++ setup +++ nl +++ tab +++ punchline).
  { rewrite format_tweet_body.
    replace (Z.to_nat (len (date +++ setup +++ punchline)
                       + ITALICS_OFFSET - 6))
      with (String.length
              (date +++ nl +++ setup +++ nl +++ tab +++ punchline)).
    - apply substring_prefix.
    - unfold len, ITALICS_OFFSET. rewrite !length_app. cbn [String.length nl tab].
      lia. }
  split; [|split; [|split; [|split; [|split]]]].
  - exact Hs.
  - unfold len, ITALICS_OFFSET. rewrite !length_app. lia.
  - reflexivity.
  - rewrite format_tweet_split.
    replace (Z.to_nat (len (date +++ setup) + ITALICS_OFFSET - 6))
      with (String.length (date +++ nl +++ setup +++ nl +++ tab) + 0)%nat.
    + rewrite substring_skip.
      replace (Z.to_nat (len (date +++ setup +++ punchline) + ITALICS_OFFSET
                         - (len (date +++ setup) + ITALICS_OFFSET)))
        with (String.length punchline).
      * apply substring_prefix.
      * unfold len. rewrite !length_app. lia.
    + unfold len, ITALICS_OFFSET. rewrite !length_app.
      cbn [String.length nl tab]. lia.
  - exact Hbody.
  - rewrite Hbody. unfold format_tweet. now rewrite !app_assoc_s.
Qed.

Lemma italics_cover_punchline_witness :
  exists before after txt para_end it_start it_end,
    sent (trace (fst (script world_four)))
    = before
      ++ [ (InsertText 6 txt, true);
           (UpdateParagraphStyle 6 para_end, true);
           (UpdateTextStyle it_start it_end, true) ]
      ++ after
    /\ (6 <= it_start <= it_end)%Z
    /\ para_end = it_end
    /\ substring (Z.to_nat (it_start - 6)) (Z.to_nat (it_end - it_start)) txt
       = "Who is there"
    /\ substring 0 (Z.to_nat (para_end - 6)) txt
       = "01/04/2024" +++ nl +++ "Knock knock" +++ nl +++ tab
         +++ "Who is there"
    /\ txt = substring 0 (Z.to_nat (para_end - 6)) txt +++ nl +++ nl.
Proof.
  apply (italics_cover_punchline world_four
           [post_104; post_103; post_102; post_101] post_103
           "01/04/2024" "Knock knock" "Who is there").
  - exact world_four_clean.
  - cbn. tauto.
  - reflexivity.
Defined.

(** ** Two runs in a row *)

Lemma world_three_clean : clean_run world_three [post_103; post_102; post_101].
Proof.
  constructor.
  - eexists. split; [reflexivity|]. split; reflexivity.
  - discriminate.
  - intros n. reflexivity.
  - repeat constructor; intros _; discriminate.
  - intros n. reflexivity.
Qed.

(** X12. Running again changes nothing.  After a run in which nothing
    went wrong and that archived a post, the next run reads from the
    [.env] file the identifier of the newest archived post and fetches
    with it as [since_id]; when the source has nothing above it, that run
    sends nothing to the document, saves nothing, leaves the [.env] file
    as the first run left it, and returns normally. *)
Theorem second_run_changes_nothing (w : World) (page : list Tweet)
    (newest : Tweet) (r2 : Response) :
  clean_run w page ->
  find matches page = Some newest ->
  get_users_tweets w (Some (id newest)) 100 = inl r2 ->
  meta r2 = Some 0%Z ->
  LAST_SEEN_TWEET_ID (next_run w (fst (script w))) = Some (id newest)
  /\ fetches (trace (fst (script (next_run w (fst (script w))))))
     = [(Some (id newest), 100%Z)]
  /\ sent (trace (fst (script (next_run w (fst (script w)))))) = []
  /\ saves (trace (fst (script (next_run w (fst (script w)))))) = []
  /\ dotenv (fst (script (next_run w (fst (script w)))))
     = dotenv (fst (script w))
  /\ snd (script (next_run w (fst (script w)))) = inl None.
Proof.
  intros Hc Hn Hf Hm.
  pose proof (watermark_clean w page Hc) as Hw. rewrite Hn in Hw.
  assert (Hl : LAST_SEEN_TWEET_ID (next_run w (fst (script w)))
               = Some (id newest)) by exact Hw.
  split; [exact Hl|].
  rewrite script_unfold, Hl.
  change (get_users_tweets (next_run w (fst (script w))))
    with (get_users_tweets w).
  rewrite Hf. unfold no_results. rewrite Hm.
  cbn -[LAST_SEEN_TWEET_ID script]. rewrite Hl. repeat split.
Qed.

Lemma second_run_changes_nothing_witness :
  LAST_SEEN_TWEET_ID (next_run world_three (fst (script world_three)))
  = Some (id post_103)
  /\ fetches (trace (fst (script (next_run world_three
                                    (fst (script world_three))))))
     = [(Some (id post_103), 100%Z)]
  /\ sent (trace (fst (script (next_run world_three
                                 (fst (script world_three)))))) = []
  /\ saves (trace (fst (script (next_run world_three
                                  (fst (script world_three)))))) = []
  /\ dotenv (fst (script (next_run world_three (fst (script world_three)))))
     = dotenv (fst (script world_three))
  /\ snd (script (next_run world_three (fst (script world_three))))
     = inl None.
Proof.
  apply (second_run_changes_nothing world_three
           [post_103; post_102; post_101] post_103
           {| meta := Some 0%Z; data := None |}).
  - exact world_three_clean.
  - reflexivity.
  - reflexivity.
  - reflexivity.
Defined.
